(** * The Ec2Instance reconciler

    A shallow embedding of [Ec2InstanceReconciler.Reconcile]
    (internal/controller/ec2instance_controller.go) together with the
    properties of its state machine: deletion, drift healing, status
    synchronisation and provisioning.

    The reconciler talks to two collaborators.  The declarative store is
    modelled as a finite map from namespaced names to objects, threaded
    through a small state monad that also records every external call in a
    log.  The cloud provider helpers ([createEc2Instance],
    [checkEC2InstanceExists], [deleteEc2Instance]) live in files that are not
    part of the controller; their outcome is taken as a parameter of the
    model. *)

From stdpp Require Import base option list strings gmap fin_maps.
From Stdlib Require Import ZArith Lia.

Open Scope string_scope.
Open Scope Z_scope.

(** ** Data model *)

(** [time.Duration] counts nanoseconds. *)
Definition Duration := Z.
Definition Second : Duration := 1000000000.

(** An [error] value.  The only thing the reconciler ever asks about an error
    is [errors.IsNotFound]. *)
Inductive error :=
| ErrNotFound (msg : string)
| ErrOther (msg : string).

Definition IsNotFound (e : error) : bool :=
  match e with
  | ErrNotFound _ => true
  | ErrOther _ => false
  end.

(** Go functions returning [(value, err)]. *)
Inductive outcome (A : Type) :=
| Ok (a : A)
| Err (e : error).
Arguments Ok {A} a.
Arguments Err {A} e.

(** [Ec2InstanceSpec]: the user's intent, with the fields of the custom
    resource (amiId, region, keyPair, instanceType, subnet, tags). *)
Record Ec2InstanceSpec := {
  amiId : string;
  region : string;
  keyPair : string;
  instanceType : string;
  subnet : string;
  tags : gmap string string
}.

(** [Ec2InstanceStatus]: the fields the reconciler writes. *)
Record Ec2InstanceStatus := {
  InstanceID : string;
  State : string;
  PublicIP : string;
  PrivateIP : string;
  PublicDNS : string;
  PrivateDNS : string
}.

(** The part of [metav1.ObjectMeta] the reconciler reads or writes.  A
    deletion timestamp is a pointer to a time: [None] is the nil pointer and
    [Some t] is the instant [t], counted from Go's zero time. *)
Record ObjectMeta := {
  Namespace : string;
  Name : string;
  DeletionTimestamp : option Z;
  Finalizers : list string
}.

Record Ec2Instance := {
  Meta : ObjectMeta;
  Spec : Ec2InstanceSpec;
  Status : Ec2InstanceStatus
}.

(** [IsZero] on a [metav1.Time] pointer: nil, or the zero instant. *)
Definition IsZero (t : option Z) : bool :=
  match t with
  | None => true
  | Some z => z =? 0
  end.

(** [types.NamespacedName]: a namespace and a name. *)
Abbreviation NamespacedName := (string * string)%type.

Record Request := { req_key : NamespacedName }.

Definition key_of (o : Ec2Instance) : NamespacedName :=
  (Namespace (Meta o), Name (Meta o)).

(** [ctrl.Result]. *)
Record Result := {
  Requeue : bool;
  RequeueAfter : Duration
}.

(** What [createEc2Instance] hands back. *)
Record CreatedInstanceInfo := {
  ci_InstanceID : string;
  ci_State : string;
  ci_PublicIP : string;
  ci_PrivateIP : string;
  ci_PublicDNS : string;
  ci_PrivateDNS : string
}.

(** What [checkEC2InstanceExists] hands back besides the error: the
    [exists] flag and the instance, of which the reconciler only reads
    [string(awsInstance.State.Name)], and only when [exists] holds. *)
Record Described := {
  d_exists : bool;
  d_StateName : string
}.

(** The finalizer literal used at all three places of [Reconcile]. *)
Definition finalizerName : string := "ec2instance.compute.cloud.com".

(** Field updates, written out as Go assignments do them. *)
Definition set_Finalizers (o : Ec2Instance) (fs : list string) : Ec2Instance :=
  {| Meta := {| Namespace := Namespace (Meta o);
                Name := Name (Meta o);
                DeletionTimestamp := DeletionTimestamp (Meta o);
                Finalizers := fs |};
     Spec := Spec o;
     Status := Status o |}.

Definition set_Status (o : Ec2Instance) (s : Ec2InstanceStatus) : Ec2Instance :=
  {| Meta := Meta o; Spec := Spec o; Status := s |}.

Definition set_InstanceID (s : Ec2InstanceStatus) (v : string) : Ec2InstanceStatus :=
  {| InstanceID := v; State := State s; PublicIP := PublicIP s;
     PrivateIP := PrivateIP s; PublicDNS := PublicDNS s;
     PrivateDNS := PrivateDNS s |}.

Definition set_State (s : Ec2InstanceStatus) (v : string) : Ec2InstanceStatus :=
  {| InstanceID := InstanceID s; State := v; PublicIP := PublicIP s;
     PrivateIP := PrivateIP s; PublicDNS := PublicDNS s;
     PrivateDNS := PrivateDNS s |}.

(** [controllerutil.RemoveFinalizer]: drops every occurrence of the token and
    keeps the order of the others. *)
Definition RemoveFinalizer (o : Ec2Instance) (finalizer : string) : Ec2Instance :=
  set_Finalizers o
    (List.filter (fun f => negb (String.eqb f finalizer)) (Finalizers (Meta o))).

(** ** Collaborators *)

(** The outcome of every external call is a parameter: the three provider
    helpers, and the faults the store may answer with.  An invocation calls
    each of them at most once per argument, so a function of the arguments
    describes what it sees; two invocations against a changed provider are
    two environments. *)
Record Env := {
  createEc2Instance : Ec2Instance -> outcome CreatedInstanceInfo;
  checkEC2InstanceExists : string -> Ec2Instance -> outcome Described;
  deleteEc2Instance : Ec2Instance -> option error;
  getFault : NamespacedName -> option error;
  updateFault : Ec2Instance -> option error;
  statusUpdateFault : Ec2Instance -> option error
}.

(** One entry per external call, in the order the calls are made.  Store
    writes carry the object that was sent and the error that came back. *)
Inductive Event :=
| EvGet (k : NamespacedName)
| EvUpdate (o : Ec2Instance) (err : option error)
| EvStatusUpdate (o : Ec2Instance) (err : option error)
| EvCreate (o : Ec2Instance)
| EvDescribe (id : string)
| EvTerminate (o : Ec2Instance).

Record World := {
  store : gmap NamespacedName Ec2Instance;
  log : list Event
}.

(** ** The monad: state passing over [World] *)

Definition M (A : Type) : Type := World -> A * World.

Definition ret {A} (a : A) : M A := fun w => (a, w).

Definition bind {A B} (m : M A) (f : A -> M B) : M B :=
  fun w => let '(a, w') := m w in f a w'.

Notation "'let*' x ':=' m 'in' k" := (bind m (fun x => k))
  (at level 10, x pattern, m at level 100, k at level 200).

Definition emit (e : Event) : M unit :=
  fun w => (tt, {| store := store w; log := log w ++ [e] |}).

Definition get_store : M (gmap NamespacedName Ec2Instance) :=
  fun w => (store w, w).

Definition put_store (s : gmap NamespacedName Ec2Instance) : M unit :=
  fun w => (tt, {| store := s; log := log w |}).

(** ** Store operations *)

(** [r.Get]: the object under the key, a not-found error when there is
    none, or whatever fault the store answers with. *)
Definition client_Get (env : Env) (k : NamespacedName) : M (outcome Ec2Instance) :=
  let* _ := emit (EvGet k) in
  match getFault env k with
  | Some e => ret (Err e)
  | None =>
      let* s := get_store in
      match s !! k with
      | Some o => ret (Ok o)
      | None => ret (Err (ErrNotFound "not found"))
      end
  end.

(** The store's test for a requested deletion: the timestamp pointer is
    set. *)
Definition deletion_requested (m : ObjectMeta) : bool :=
  match DeletionTimestamp m with
  | Some _ => true
  | None => false
  end.

(** An update finalizes the stored object [old] when its deletion was
    requested and the object sent, [o], has no finalizer left. *)
Definition finalized (old o : Ec2Instance) : bool :=
  deletion_requested (Meta old) && (length (Finalizers (Meta o)) =? 0)%nat.

(** What an accepted update of [old] by [o] leaves in the store: the spec
    and the lifecycle markers of [o] with the stored status, or nothing at
    all when the update finalizes the object. *)
Definition stored_by_update (s : gmap NamespacedName Ec2Instance)
    (old o : Ec2Instance) : gmap NamespacedName Ec2Instance :=
  if finalized old o then delete (key_of o) s
  else <[key_of o := set_Status o (Status old)]> s.

(** [r.Update]: writes the spec and the lifecycle markers of the object;
    the status sub-object is only written through [r.Status().Update].
    The store erases an object whose deletion was requested as soon as an
    update leaves it without finalizers. *)
Definition client_Update (env : Env) (o : Ec2Instance) : M (option error) :=
  let* s := get_store in
  match updateFault env o, s !! key_of o with
  | Some e, _ =>
      let* _ := emit (EvUpdate o (Some e)) in
      ret (Some e)
  | None, None =>
      let* _ := emit (EvUpdate o (Some (ErrNotFound "not found"))) in
      ret (Some (ErrNotFound "not found"))
  | None, Some old =>
      let* _ := emit (EvUpdate o None) in
      let* _ := put_store (stored_by_update s old o) in
      ret None
  end.

(** [r.Status().Update]: writes the status sub-object only. *)
Definition client_Status_Update (env : Env) (o : Ec2Instance) : M (option error) :=
  let* s := get_store in
  match statusUpdateFault env o, s !! key_of o with
  | Some e, _ =>
      let* _ := emit (EvStatusUpdate o (Some e)) in
      ret (Some e)
  | None, None =>
      let* _ := emit (EvStatusUpdate o (Some (ErrNotFound "not found"))) in
      ret (Some (ErrNotFound "not found"))
  | None, Some old =>
      let* _ := emit (EvStatusUpdate o None) in
      let* _ := put_store (<[key_of o := set_Status old (Status o)]> s) in
      ret None
  end.

(** ** Provider calls *)

Definition call_delete (env : Env) (o : Ec2Instance) : M (option error) :=
  let* _ := emit (EvTerminate o) in
  ret (deleteEc2Instance env o).

Definition call_check (env : Env) (id : string) (o : Ec2Instance) : M (outcome Described) :=
  let* _ := emit (EvDescribe id) in
  ret (checkEC2InstanceExists env id o).

Definition call_create (env : Env) (o : Ec2Instance) : M (outcome CreatedInstanceInfo) :=
  let* _ := emit (EvCreate o) in
  ret (createEc2Instance env o).

(** ** Reconcile *)

Definition done : Result := {| Requeue := false; RequeueAfter := 0 |}.
Definition requeue : Result := {| Requeue := true; RequeueAfter := 0 |}.
Definition requeue_after (d : Duration) : Result :=
  {| Requeue := false; RequeueAfter := d |}.

(** The status assignments after a successful create (lines 157-162). *)
Definition status_of_created (c : CreatedInstanceInfo) : Ec2InstanceStatus :=
  {| InstanceID := ci_InstanceID c;
     State := ci_State c;
     PublicIP := ci_PublicIP c;
     PrivateIP := ci_PrivateIP c;
     PublicDNS := ci_PublicDNS c;
     PrivateDNS := ci_PrivateDNS c |}.

(** The deletion branch (lines 66-82). *)
Definition reconcile_deleting (env : Env) (ec2Instance : Ec2Instance)
  : M (Result * option error) :=
  let* d := call_delete env ec2Instance in
  match d with
  | Some err => ret (requeue, Some err)
  | None =>
      let ec2Instance := RemoveFinalizer ec2Instance finalizerName in
      let* u := client_Update env ec2Instance in
      match u with
      | Some err => ret (requeue, Some err)
      | None => ret (done, None)
      end
  end.

(** The branch for an object that already records an instance id
    (lines 95-130). *)
Definition reconcile_existing (env : Env) (ec2Instance : Ec2Instance)
  : M (Result * option error) :=
  let* c := call_check env (InstanceID (Status ec2Instance)) ec2Instance in
  match c with
  | Err err => ret (done, Some err)
  | Ok d =>
      if negb (d_exists d) || String.eqb (d_StateName d) "terminated" then
        let ec2Instance :=
          set_Status ec2Instance (set_InstanceID (Status ec2Instance) "") in
        let ec2Instance :=
          set_Status ec2Instance (set_State (Status ec2Instance) "Terminated") in
        let* u := client_Status_Update env ec2Instance in
        match u with
        | Some err => ret (done, Some err)
        | None => ret (requeue, None)
        end
      else if negb (String.eqb (State (Status ec2Instance)) (d_StateName d)) then
        let ec2Instance :=
          set_Status ec2Instance (set_State (Status ec2Instance) (d_StateName d)) in
        let* u := client_Status_Update env ec2Instance in
        match u with
        | Some err => ret (done, Some err)
        | None => ret (requeue_after (30 * Second), None)
        end
      else ret (requeue_after (30 * Second), None)
  end.

(** The creation branch (lines 132-171). *)
Definition reconcile_creating (env : Env) (ec2Instance : Ec2Instance)
  : M (Result * option error) :=
  let ec2Instance :=
    set_Finalizers ec2Instance (Finalizers (Meta ec2Instance) ++ [finalizerName]) in
  let* u := client_Update env ec2Instance in
  match u with
  | Some err => ret (requeue, Some err)
  | None =>
      let* c := call_create env ec2Instance in
      match c with
      | Err err => ret (done, Some err)
      | Ok createdInstanceInfo =>
          let ec2Instance :=
            set_Status ec2Instance (status_of_created createdInstanceInfo) in
          let* u := client_Status_Update env ec2Instance in
          match u with
          | Some err => ret (done, Some err)
          | None => ret (requeue_after (1 * Second), None)
          end
      end
  end.

Definition Reconcile (env : Env) (req : Request) : M (Result * option error) :=
  let* g := client_Get env (req_key req) in
  match g with
  | Err err =>
      if IsNotFound err then ret (done, None) else ret (done, Some err)
  | Ok ec2Instance =>
      if negb (IsZero (DeletionTimestamp (Meta ec2Instance))) then
        reconcile_deleting env ec2Instance
      else if negb (String.eqb (InstanceID (Status ec2Instance)) "") then
        reconcile_existing env ec2Instance
      else
        reconcile_creating env ec2Instance
  end.

(** One invocation on a store, starting from an empty log. *)
Definition run (env : Env) (req : Request)
    (s : gmap NamespacedName Ec2Instance) : (Result * option error) * World :=
  Reconcile env req {| store := s; log := [] |}.

(** ** Sample data *)

Module Sample.

Definition spec0 : Ec2InstanceSpec :=
  {| amiId := "ami-019715e023234";
     region := "ap-south-1";
     keyPair := "myaws_keypair";
     instanceType := "t2.large";
     subnet := "subnet-0d17e7ca2343455";
     tags := {[ "Name" := "my-demo-server" ]} |}.

Definition key0 : NamespacedName := ("ec2operator-system", "my-demo-server").
Definition req0 : Request := {| req_key := key0 |}.

Definition meta0 (del : option Z) (fs : list string) : ObjectMeta :=
  {| Namespace := "ec2operator-system"; Name := "my-demo-server";
     DeletionTimestamp := del; Finalizers := fs |}.

Definition status_empty : Ec2InstanceStatus :=
  {| InstanceID := ""; State := ""; PublicIP := ""; PrivateIP := "";
     PublicDNS := ""; PrivateDNS := "" |}.

Definition status_of (id st : string) : Ec2InstanceStatus :=
  {| InstanceID := id; State := st; PublicIP := "3.6.0.1";
     PrivateIP := "10.0.0.7"; PublicDNS := "ec2-3-6-0-1.example";
     PrivateDNS := "ip-10-0-0-7.example" |}.

Definition obj (del : option Z) (fs : list string) (st : Ec2InstanceStatus)
  : Ec2Instance :=
  {| Meta := meta0 del fs; Spec := spec0; Status := st |}.

Definition created0 : CreatedInstanceInfo :=
  {| ci_InstanceID := "i-123"; ci_State := "pending";
     ci_PublicIP := "3.6.0.1"; ci_PrivateIP := "10.0.0.7";
     ci_PublicDNS := "ec2-3-6-0-1.example";
     ci_PrivateDNS := "ip-10-0-0-7.example" |}.

(** A provider and a store that answer every call the same way. *)
Definition env_with (create : outcome CreatedInstanceInfo)
    (describe : outcome Described) (del upd supd : option error) : Env :=
  {| createEc2Instance := fun _ => create;
     checkEC2InstanceExists := fun _ _ => describe;
     deleteEc2Instance := fun _ => del;
     getFault := fun _ => None;
     updateFault := fun _ => upd;
     statusUpdateFault := fun _ => supd |}.

(** Every call succeeds; [d] is what describe reports. *)
Definition env_ok (d : Described) : Env :=
  env_with (Ok created0) (Ok d) None None None.

Definition not_found : Described := {| d_exists := false; d_StateName := "" |}.
Definition reports (st : string) : Described :=
  {| d_exists := true; d_StateName := st |}.

Definition fresh : Ec2Instance := obj None [] status_empty.
Definition running : Ec2Instance :=
  obj None [finalizerName] (status_of "i-123" "running").
Definition pending : Ec2Instance :=
  obj None [finalizerName] (status_of "i-123" "pending").
Definition deleting : Ec2Instance :=
  obj (Some 63897465600) [finalizerName] (status_of "i-123" "running").

(** Another object of the same namespace. *)
Definition neighbour : Ec2Instance :=
  {| Meta := {| Namespace := "ec2operator-system"; Name := "build-agent";
                DeletionTimestamp := None; Finalizers := [finalizerName] |};
     Spec := spec0;
     Status := status_of "i-777" "stopped" |}.

Definition store_of (o : Ec2Instance) : gmap NamespacedName Ec2Instance :=
  {[ key_of o := o ]}.

End Sample.

(** ** Reading logs and stores *)

Definition is_write (e : Event) : bool :=
  match e with
  | EvUpdate _ _ | EvStatusUpdate _ _ => true
  | _ => false
  end.

Definition is_create (e : Event) : bool :=
  match e with
  | EvCreate _ => true
  | _ => false
  end.

(** The writes of a log, in order. *)
Definition writes (l : list Event) : list Event := List.filter is_write l.

(** The object an event carries, if any. *)
Definition event_object (e : Event) : option Ec2Instance :=
  match e with
  | EvUpdate o _ | EvStatusUpdate o _ | EvCreate o | EvTerminate o => Some o
  | EvGet _ | EvDescribe _ => None
  end.

(** The object stored under [k], if any, carries [k] as its own name. *)
Definition well_keyed (s : gmap NamespacedName Ec2Instance) (k : NamespacedName) : bool :=
  match s !! k with
  | Some o => bool_decide (key_of o = k)
  | None => true
  end.

(** The object as the drift branch sends it to the status writer. *)
Definition drift_reset (o : Ec2Instance) : Ec2Instance :=
  set_Status o (set_State (set_InstanceID (Status o) "") "Terminated").

(** The object as the sync branch sends it to the status writer. *)
Definition synced (o : Ec2Instance) (st : string) : Ec2Instance :=
  set_Status o (set_State (Status o) st).

(** The object as the creation branch sends it to the marker writer. *)
Definition with_marker (o : Ec2Instance) : Ec2Instance :=
  set_Finalizers o (Finalizers (Meta o) ++ [finalizerName]).

(** A "requeue shortly" directive: a positive delay below the steady-state
    interval of 30 seconds. *)
Definition requeue_shortly (r : Result) : Prop :=
  0 < RequeueAfter r < 30 * Second.

(** The object as the creation branch sends it to the status writer. *)
Definition provisioned (o : Ec2Instance) (c : CreatedInstanceInfo) : Ec2Instance :=
  set_Status (with_marker o) (status_of_created c).

(** C3 as stated: in the sync case the directive is a short delay. *)
Definition sync_requeues_shortly (env : Env) (req : Request)
    (s : gmap NamespacedName Ec2Instance) : Prop :=
  forall o d,
    getFault env (req_key req) = None ->
    s !! req_key req = Some o ->
    IsZero (DeletionTimestamp (Meta o)) = true ->
    InstanceID (Status o) <> "" ->
    checkEC2InstanceExists env (InstanceID (Status o)) o = Ok d ->
    d_exists d = true ->
    d_StateName d <> "terminated" ->
    State (Status o) <> d_StateName d ->
    statusUpdateFault env (synced o (d_StateName d)) = None ->
    requeue_shortly (fst (fst (run env req s))).


(** The effect on the store of one logged event: an accepted write does
    what the store operation does, anything else does nothing. *)
Definition replay_event (s : gmap NamespacedName Ec2Instance) (e : Event)
  : gmap NamespacedName Ec2Instance :=
  match e with
  | EvUpdate o None =>
      match s !! key_of o with
      | Some old => stored_by_update s old o
      | None => s
      end
  | EvStatusUpdate o None =>
      match s !! key_of o with
      | Some old => <[key_of o := set_Status old (Status o)]> s
      | None => s
      end
  | _ => s
  end.

(** The store once the events of [l] have happened, starting from [s]. *)
Definition store_after (s : gmap NamespacedName Ec2Instance) (l : list Event)
  : gmap NamespacedName Ec2Instance :=
  fold_left replay_event l s.

(** C8 as stated: a report equal to the stored state means no write and the
    steady-state interval. *)
Definition equal_report_is_steady (env : Env) (req : Request)
    (s : gmap NamespacedName Ec2Instance) : Prop :=
  forall o d,
    getFault env (req_key req) = None ->
    s !! req_key req = Some o ->
    IsZero (DeletionTimestamp (Meta o)) = true ->
    InstanceID (Status o) <> "" ->
    checkEC2InstanceExists env (InstanceID (Status o)) o = Ok d ->
    d_exists d = true ->
    State (Status o) = d_StateName d ->
    writes (log (snd (run env req s))) = []
    /\ fst (run env req s) = (requeue_after (30 * Second), None).

(** A call to the cloud provider. *)
Definition is_provider_call (e : Event) : bool :=
  match e with
  | EvCreate _ | EvDescribe _ | EvTerminate _ => true
  | _ => false
  end.

(** An object that records an instance id carries the finalizer. *)
Definition marker_invariant (o : Ec2Instance) : Prop :=
  InstanceID (Status o) <> "" -> finalizerName ∈ Finalizers (Meta o).

(** ** Equations of the store operations *)

(** Runs the administrative steps of the monad. *)
Ltac step_M := cbv beta iota zeta; cbn [store log fst snd].

Section Operations.

Variable env : Env.

Implicit Types (s : gmap NamespacedName Ec2Instance) (l : list Event)
  (o old : Ec2Instance) (k : NamespacedName) (e : error).

Lemma client_Get_found k s l o :
  getFault env k = None -> s !! k = Some o ->
  client_Get env k {| store := s; log := l |}
  = (Ok o, {| store := s; log := l ++ [EvGet k] |}).
Proof.
  intros Hf Hs. unfold client_Get, bind, emit, get_store, ret.
  step_M. rewrite Hf. step_M. now rewrite Hs.
Qed.

Lemma client_Get_absent k s l :
  getFault env k = None -> s !! k = None ->
  client_Get env k {| store := s; log := l |}
  = (Err (ErrNotFound "not found"), {| store := s; log := l ++ [EvGet k] |}).
Proof.
  intros Hf Hs. unfold client_Get, bind, emit, get_store, ret.
  step_M. rewrite Hf. step_M. now rewrite Hs.
Qed.

Lemma client_Get_fault k s l e :
  getFault env k = Some e ->
  client_Get env k {| store := s; log := l |}
  = (Err e, {| store := s; log := l ++ [EvGet k] |}).
Proof.
  intros Hf. unfold client_Get, bind, emit, get_store, ret.
  step_M. now rewrite Hf.
Qed.

Lemma client_Update_ok o s l old :
  updateFault env o = None -> s !! key_of o = Some old ->
  client_Update env o {| store := s; log := l |}
  = (None, {| store := stored_by_update s old o;
              log := l ++ [EvUpdate o None] |}).
Proof.
  intros Hf Hs. unfold client_Update, bind, emit, get_store, put_store, ret.
  step_M. now rewrite Hf, Hs.
Qed.

Lemma client_Update_absent o s l :
  updateFault env o = None -> s !! key_of o = None ->
  client_Update env o {| store := s; log := l |}
  = (Some (ErrNotFound "not found"),
     {| store := s; log := l ++ [EvUpdate o (Some (ErrNotFound "not found"))] |}).
Proof.
  intros Hf Hs. unfold client_Update, bind, emit, get_store, put_store, ret.
  step_M. now rewrite Hf, Hs.
Qed.

Lemma client_Update_fault o s l e :
  updateFault env o = Some e ->
  client_Update env o {| store := s; log := l |}
  = (Some e, {| store := s; log := l ++ [EvUpdate o (Some e)] |}).
Proof.
  intros Hf. unfold client_Update, bind, emit, get_store, put_store, ret.
  step_M. now rewrite Hf.
Qed.

Lemma client_Status_Update_ok o s l old :
  statusUpdateFault env o = None -> s !! key_of o = Some old ->
  client_Status_Update env o {| store := s; log := l |}
  = (None, {| store := <[key_of o := set_Status old (Status o)]> s;
              log := l ++ [EvStatusUpdate o None] |}).
Proof.
  intros Hf Hs. unfold client_Status_Update, bind, emit, get_store, put_store, ret.
  step_M. now rewrite Hf, Hs.
Qed.

Lemma client_Status_Update_absent o s l :
  statusUpdateFault env o = None -> s !! key_of o = None ->
  client_Status_Update env o {| store := s; log := l |}
  = (Some (ErrNotFound "not found"),
     {| store := s;
        log := l ++ [EvStatusUpdate o (Some (ErrNotFound "not found"))] |}).
Proof.
  intros Hf Hs. unfold client_Status_Update, bind, emit, get_store, put_store, ret.
  step_M. now rewrite Hf, Hs.
Qed.

Lemma client_Status_Update_fault o s l e :
  statusUpdateFault env o = Some e ->
  client_Status_Update env o {| store := s; log := l |}
  = (Some e, {| store := s; log := l ++ [EvStatusUpdate o (Some e)] |}).
Proof.
  intros Hf. unfold client_Status_Update, bind, emit, get_store, put_store, ret.
  step_M. now rewrite Hf.
Qed.

End Operations.

(** Which branch [Reconcile] takes once the object has been read. *)
Lemma Reconcile_found env req s o :
  getFault env (req_key req) = None ->
  s !! req_key req = Some o ->
  run env req s =
    let w := {| store := s; log := [EvGet (req_key req)] |} in
    if negb (IsZero (DeletionTimestamp (Meta o))) then reconcile_deleting env o w
    else if negb (String.eqb (InstanceID (Status o)) "") then reconcile_existing env o w
    else reconcile_creating env o w.
Proof.
  intros Hf Hs. unfold run, Reconcile, bind.
  rewrite (client_Get_found env _ _ _ o Hf Hs). step_M.
  destruct (negb (IsZero _)); [reflexivity|].
  destruct (negb (String.eqb _ _)); reflexivity.
Qed.

Lemma well_keyed_key s k o :
  well_keyed s k = true -> s !! k = Some o -> key_of o = k.
Proof.
  unfold well_keyed. intros Hw Hs. rewrite Hs in Hw.
  now apply bool_decide_eq_true in Hw.
Qed.

Lemma eqb_empty_false (x : string) : x <> "" -> String.eqb x "" = false.
Proof. intros H. now apply String.eqb_neq. Qed.

(** ** The deletion branch *)

(** C6: when deletion has been requested and terminate fails with [e], the
    invocation returns [Requeue: true] together with [e], makes no store
    write at all (the log holds the read and the terminate call only) and
    leaves the store, hence the finalizers of the object, as they were. *)
Theorem terminate_failure_keeps_marker env req s o e :
  getFault env (req_key req) = None ->
  s !! req_key req = Some o ->
  IsZero (DeletionTimestamp (Meta o)) = false ->
  deleteEc2Instance env o = Some e ->
  run env req s
  = ((requeue, Some e),
     {| store := s; log := [EvGet (req_key req); EvTerminate o] |})
  /\ writes (log (snd (run env req s))) = []
  /\ Finalizers ∘ Meta <$> store (snd (run env req s)) !! req_key req
     = Some (Finalizers (Meta o)).
Proof.
  intros Hf Hs Hdel Hterm.
  assert (Hrun : run env req s
    = ((requeue, Some e),
       {| store := s; log := [EvGet (req_key req); EvTerminate o] |})).
  { rewrite (Reconcile_found env req s o Hf Hs). step_M. rewrite Hdel.
    cbn [negb]. unfold reconcile_deleting, call_delete, bind, emit, ret.
    step_M. now rewrite Hterm. }
  rewrite Hrun. cbn [snd log store]. split; [reflexivity|].
  split; [reflexivity|]. now rewrite Hs.
Qed.

(** ** The branch for an object with an instance id *)

Section Existing.

Variables (env : Env) (req : Request) (s : gmap NamespacedName Ec2Instance).
Variables (o : Ec2Instance) (d : Described).

Hypothesis Hfault : getFault env (req_key req) = None.
Hypothesis Hstored : s !! req_key req = Some o.
Hypothesis Hkey : key_of o = req_key req.
Hypothesis Hlive : IsZero (DeletionTimestamp (Meta o)) = true.
Hypothesis Hid : InstanceID (Status o) <> "".
Hypothesis Hdescribe :
  checkEC2InstanceExists env (InstanceID (Status o)) o = Ok d.

Lemma existing_enters :
  run env req s
  = reconcile_existing env o {| store := s; log := [EvGet (req_key req)] |}.
Proof.
  rewrite (Reconcile_found env req s o Hfault Hstored). step_M.
  rewrite Hlive, (eqb_empty_false _ Hid). reflexivity.
Qed.

(** Drift: the provider no longer has the instance.  The status is reset and
    written, and the invocation asks for an immediate requeue. *)
Lemma drift_resets_status :
  d_exists d = false \/ d_StateName d = "terminated" ->
  statusUpdateFault env (drift_reset o) = None ->
  run env req s
  = ((requeue, None),
     {| store := <[req_key req := drift_reset o]> s;
        log := [EvGet (req_key req); EvDescribe (InstanceID (Status o));
                EvStatusUpdate (drift_reset o) None] |}).
Proof.
  intros Hgone Hw. rewrite existing_enters.
  unfold reconcile_existing, call_check, bind, emit, ret. step_M.
  rewrite Hdescribe.
  assert (Hc : negb (d_exists d) || String.eqb (d_StateName d) "terminated" = true).
  { destruct Hgone as [-> | ->]; [reflexivity|].
    rewrite String.eqb_refl. now destruct (d_exists d). }
  rewrite Hc. fold (drift_reset o).
  rewrite (client_Status_Update_ok env (drift_reset o) s _ o Hw)
    by (change (key_of (drift_reset o)) with (key_of o); now rewrite Hkey).
  change (key_of (drift_reset o)) with (key_of o). rewrite Hkey.
  reflexivity.
Qed.

(** Sync: the instance is there, under another state than the stored one. *)
Lemma sync_overwrites_state :
  d_exists d = true ->
  d_StateName d <> "terminated" ->
  State (Status o) <> d_StateName d ->
  statusUpdateFault env (synced o (d_StateName d)) = None ->
  run env req s
  = ((requeue_after (30 * Second), None),
     {| store := <[req_key req := synced o (d_StateName d)]> s;
        log := [EvGet (req_key req); EvDescribe (InstanceID (Status o));
                EvStatusUpdate (synced o (d_StateName d)) None] |}).
Proof.
  intros Hex Hnt Hne Hw. rewrite existing_enters.
  unfold reconcile_existing, call_check, bind, emit, ret. step_M.
  rewrite Hdescribe, Hex.
  apply String.eqb_neq in Hnt, Hne. rewrite Hnt, Hne. cbn [negb orb].
  fold (synced o (d_StateName d)).
  rewrite (client_Status_Update_ok env (synced o (d_StateName d)) s _ o Hw)
    by (change (key_of (synced o (d_StateName d))) with (key_of o);
        now rewrite Hkey).
  change (key_of (synced o (d_StateName d))) with (key_of o). rewrite Hkey.
  reflexivity.
Qed.

(** Steady state: the instance is there, under the stored state. *)
Lemma steady_no_write :
  d_exists d = true ->
  d_StateName d <> "terminated" ->
  State (Status o) = d_StateName d ->
  run env req s
  = ((requeue_after (30 * Second), None),
     {| store := s;
        log := [EvGet (req_key req); EvDescribe (InstanceID (Status o))] |}).
Proof.
  intros Hex Hnt Heq. rewrite existing_enters.
  unfold reconcile_existing, call_check, bind, emit, ret. step_M.
  rewrite Hdescribe, Hex, Heq, String.eqb_refl.
  apply String.eqb_neq in Hnt. rewrite Hnt. reflexivity.
Qed.

End Existing.

(** An update that sends a list with an appended finalizer never finalizes
    the object. *)
Lemma finalized_appended old o fs x :
  finalized old (set_Finalizers o (fs ++ [x])) = false.
Proof.
  unfold finalized. cbn [set_Finalizers Meta Finalizers].
  rewrite length_app. cbn [length].
  replace (length fs + 1)%nat with (S (length fs)) by lia.
  cbn [Nat.eqb]. apply andb_false_r.
Qed.

(** ** The creation branch *)

Section Provisioning.

Variables (env : Env) (req : Request) (s : gmap NamespacedName Ec2Instance).
Variable o : Ec2Instance.

Hypothesis Hfault : getFault env (req_key req) = None.
Hypothesis Hstored : s !! req_key req = Some o.
Hypothesis Hkey : key_of o = req_key req.
Hypothesis Hlive : IsZero (DeletionTimestamp (Meta o)) = true.
Hypothesis Hid : InstanceID (Status o) = "".

Lemma provisioning_enters :
  run env req s
  = reconcile_creating env o {| store := s; log := [EvGet (req_key req)] |}.
Proof.
  rewrite (Reconcile_found env req s o Hfault Hstored). step_M.
  rewrite Hlive, Hid. reflexivity.
Qed.

Lemma marker_write_ok l :
  updateFault env (with_marker o) = None ->
  client_Update env (with_marker o) {| store := s; log := l |}
  = (None, {| store := <[req_key req := with_marker o]> s;
              log := l ++ [EvUpdate (with_marker o) None] |}).
Proof.
  intros Hw.
  rewrite (client_Update_ok env (with_marker o) s l o Hw)
    by (change (key_of (with_marker o)) with (key_of o); now rewrite Hkey).
  unfold stored_by_update, with_marker. rewrite finalized_appended.
  fold (with_marker o).
  change (key_of (with_marker o)) with (key_of o). rewrite Hkey.
  reflexivity.
Qed.

Lemma provisioning_marker_write_fails e :
  updateFault env (with_marker o) = Some e ->
  run env req s
  = ((requeue, Some e),
     {| store := s;
        log := [EvGet (req_key req); EvUpdate (with_marker o) (Some e)] |}).
Proof.
  intros Hw. rewrite provisioning_enters.
  unfold reconcile_creating, bind. fold (with_marker o).
  now rewrite (client_Update_fault env _ _ _ e Hw).
Qed.

Lemma provisioning_create_fails e :
  updateFault env (with_marker o) = None ->
  createEc2Instance env (with_marker o) = Err e ->
  run env req s
  = ((done, Some e),
     {| store := <[req_key req := with_marker o]> s;
        log := [EvGet (req_key req); EvUpdate (with_marker o) None;
                EvCreate (with_marker o)] |}).
Proof.
  intros Hw Hc. rewrite provisioning_enters.
  unfold reconcile_creating, bind. fold (with_marker o).
  rewrite (marker_write_ok _ Hw).
  unfold call_create, bind, emit, ret. step_M. now rewrite Hc.
Qed.

Lemma provisioning_status_write_fails c e :
  updateFault env (with_marker o) = None ->
  createEc2Instance env (with_marker o) = Ok c ->
  statusUpdateFault env (provisioned o c) = Some e ->
  run env req s
  = ((done, Some e),
     {| store := <[req_key req := with_marker o]> s;
        log := [EvGet (req_key req); EvUpdate (with_marker o) None;
                EvCreate (with_marker o);
                EvStatusUpdate (provisioned o c) (Some e)] |}).
Proof.
  intros Hw Hc Hsw. rewrite provisioning_enters.
  unfold reconcile_creating, bind. fold (with_marker o).
  rewrite (marker_write_ok _ Hw).
  unfold call_create, bind, emit, ret. step_M. rewrite Hc.
  fold (provisioned o c).
  now rewrite (client_Status_Update_fault env _ _ _ e Hsw).
Qed.

Lemma provisioning_succeeds c :
  updateFault env (with_marker o) = None ->
  createEc2Instance env (with_marker o) = Ok c ->
  statusUpdateFault env (provisioned o c) = None ->
  run env req s
  = ((requeue_after (1 * Second), None),
     {| store := <[req_key req := provisioned o c]> s;
        log := [EvGet (req_key req); EvUpdate (with_marker o) None;
                EvCreate (with_marker o);
                EvStatusUpdate (provisioned o c) None] |}).
Proof.
  intros Hw Hc Hsw. rewrite provisioning_enters.
  unfold reconcile_creating, bind. fold (with_marker o).
  rewrite (marker_write_ok _ Hw).
  unfold call_create, bind, emit, ret. step_M. rewrite Hc.
  fold (provisioned o c).
  rewrite (client_Status_Update_ok env (provisioned o c) _ _ (with_marker o) Hsw)
    by (change (key_of (provisioned o c)) with (key_of o);
        rewrite Hkey; apply lookup_insert_eq).
  change (key_of (provisioned o c)) with (key_of o). rewrite Hkey.
  now rewrite insert_insert_eq.
Qed.

End Provisioning.

(** ** Properties of every invocation *)

Ltac unfold_Reconcile :=
  unfold run, Reconcile, reconcile_deleting, reconcile_existing,
    reconcile_creating, client_Get, client_Update, client_Status_Update,
    call_delete, call_check, call_create, bind, emit, get_store, put_store, ret.

(** Splits on every test the invocation makes, outermost test first. *)
Ltac all_paths :=
  unfold_Reconcile; step_M;
  repeat (match goal with
          | |- context [match ?x with _ => _ end] =>
              lazymatch x with
              | context [match _ with _ => _ end] => fail
              | _ => destruct x eqn:?; step_M
              end
          end).

(** The log of an invocation either holds no create call, or starts with the
    read, the successful marker write and the create call, in this order,
    with no further create call behind them. *)
Lemma run_log_cases env req s :
  existsb is_create (log (snd (run env req s))) = false
  \/ exists o tail,
       s !! req_key req = Some o
       /\ IsZero (DeletionTimestamp (Meta o)) = true
       /\ InstanceID (Status o) = ""
       /\ log (snd (run env req s))
          = ([EvGet (req_key req); EvUpdate (with_marker o) None;
              EvCreate (with_marker o)] ++ tail)%list
       /\ existsb is_create tail = false.
Proof.
  all_paths.
  all: try (left; reflexivity).
  all: right; eexists _, _; split; [reflexivity|].
  all: apply negb_false_iff in Heqb, Heqb0; apply String.eqb_eq in Heqb0.
  all: split; [assumption|]; split; [assumption|].
  all: split; [cbn [app]; reflexivity | reflexivity].
Qed.

(** Membership of a create call, read off the boolean scan of the log. *)
Lemma create_in_log (c : Ec2Instance) (l : list Event) :
  EvCreate c ∈ l -> existsb is_create l = true.
Proof.
  intros H. apply existsb_exists. exists (EvCreate c).
  split; [now apply list_elem_of_In | reflexivity].
Qed.

(** A log cut at a create call, when the only create call is known. *)
Lemma cut_at_create (pre tail l1 l2 : list Event) (c c' : Ec2Instance) :
  existsb is_create pre = false ->
  existsb is_create tail = false ->
  (pre ++ EvCreate c :: tail = l1 ++ EvCreate c' :: l2)%list ->
  l1 = pre /\ c' = c.
Proof.
  revert l1. induction pre as [|x pre IH]; intros l1 Hpre Htail Heq.
  - destruct l1 as [|y l1]; cbn in Heq.
    + now inversion Heq.
    + inversion Heq; subst. rewrite existsb_app in Htail.
      cbn in Htail. now rewrite orb_true_r in Htail.
  - cbn in Hpre. apply orb_false_iff in Hpre as [Hx Hpre].
    destruct l1 as [|y l1]; cbn in Heq.
    + inversion Heq; subst. discriminate.
    + inversion Heq; subst. destruct (IH l1 Hpre Htail) as [-> ->]; auto.
Qed.

Lemma key_of_set_Finalizers o fs : key_of (set_Finalizers o fs) = key_of o.
Proof. reflexivity. Qed.

Lemma key_of_set_Status o st : key_of (set_Status o st) = key_of o.
Proof. reflexivity. Qed.

Lemma key_of_RemoveFinalizer o f : key_of (RemoveFinalizer o f) = key_of o.
Proof. reflexivity. Qed.

(** Overwriting an entry with an object of the same spec changes no spec. *)
Lemma insert_same_spec (s : gmap NamespacedName Ec2Instance) k o o' k' :
  s !! k = Some o -> Spec o' = Spec o ->
  Spec <$> <[k := o']> s !! k' = Spec <$> s !! k'.
Proof.
  intros Hs Hspec. destruct (decide (k = k')) as [<-|Hne].
  - rewrite lookup_insert_eq, Hs. cbn. now rewrite Hspec.
  - now rewrite lookup_insert_ne.
Qed.

(** Closes a goal about the events of an explicit log. *)
Ltac by_log_inspection :=
  let ev := fresh "ev" in
  let o' := fresh "o'" in
  let Hin := fresh "Hin" in
  let Hev := fresh "Hev" in
  intros ev o' Hin Hev; cbn [app] in Hin;
  repeat (apply elem_of_cons in Hin as [->|Hin]);
  try (apply elem_of_nil in Hin; contradiction);
  cbn in Hev; simplify_eq; reflexivity.

(** Identifies the objects found under the key of the request. *)
Ltac use_well_keyed :=
  match goal with
  | Hw : well_keyed ?m ?k = true, H : ?m !! ?k = Some ?e |- _ =>
      let Hk := fresh "Hk" in
      pose proof (well_keyed_key _ _ _ Hw H) as Hk;
      unfold RemoveFinalizer in *;
      rewrite ?key_of_set_Status, ?key_of_set_Finalizers, ?Hk in *;
      simplify_eq
  end.

(** An accepted update that sends the stored spec leaves every object
    that is still there with the spec it had. *)
Lemma stored_by_update_spec (s : gmap NamespacedName Ec2Instance) old o k sp :
  s !! key_of o = Some old -> Spec o = Spec old ->
  Spec <$> stored_by_update s old o !! k = Some sp ->
  Spec <$> s !! k = Some sp.
Proof.
  intros Hs Hspec. unfold stored_by_update. destruct (finalized old o).
  - destruct (decide (key_of o = k)) as [<-|Hne].
    + rewrite lookup_delete_eq. discriminate.
    + now rewrite lookup_delete_ne.
  - now rewrite (insert_same_spec s (key_of o) old
                   (set_Status o (Status old)) k Hs Hspec).
Qed.

(** An accepted update removes no object but the one it finalizes. *)
Lemma stored_by_update_None (s : gmap NamespacedName Ec2Instance) old o k :
  stored_by_update s old o !! k = None ->
  s !! k = None \/ (k = key_of o /\ finalized old o = true).
Proof.
  unfold stored_by_update. destruct (finalized old o) eqn:Hfin.
  - intros H. apply lookup_delete_None in H as [<-|H]; [now right | now left].
  - intros H. apply lookup_insert_None in H as [H _]. now left.
Qed.

Lemma deletion_requested_IsZero m :
  IsZero (DeletionTimestamp m) = false -> deletion_requested m = true.
Proof. unfold deletion_requested. now destruct (DeletionTimestamp m). Qed.

Lemma IsZero_deletion_requested m :
  deletion_requested m = false -> IsZero (DeletionTimestamp m) = true.
Proof. unfold deletion_requested. now destruct (DeletionTimestamp m). Qed.

(** Undoes, in a hypothesis on the specs of the final store, the last write
    that is still visible in it. *)
Ltac peel_write H :=
  match type of H with
  | Spec <$> <[?a := ?x]> ?m !! ?k = _ =>
      match goal with
      | Hm : m !! a = Some ?o0 |- _ =>
          rewrite (insert_same_spec m a o0 x k Hm eq_refl) in H
      end
  | Spec <$> stored_by_update ?m ?old ?o !! ?k = _ =>
      let Hl := fresh "Hl" in
      assert (Hl : m !! key_of o = Some old)
        by (rewrite ?key_of_set_Finalizers;
            match goal with Hk : key_of _ = _ |- _ => rewrite Hk end;
            assumption);
      apply (stored_by_update_spec m old o k _ Hl eq_refl) in H
  end.

(** The same for an entry that is missing after a status write. *)
Ltac peel_insert_None H :=
  match type of H with
  | <[_ := _]> _ !! _ = None => apply lookup_insert_None in H as [H _]
  end.

(** C9: on every path of an invocation, every object that is in the store
    afterwards has the spec it had before, and every object handed to the
    store or to the provider carries the spec that was read.  An object is
    missing afterwards only if it was missing before, or if it is the
    reconciled one and its deletion had been requested.  The store is
    assumed to keep the object under its own name. *)
Theorem spec_never_mutated env req s :
  well_keyed s (req_key req) = true ->
  (forall k o', store (snd (run env req s)) !! k = Some o' ->
     Spec <$> s !! k = Some (Spec o'))
  /\ (forall k, store (snd (run env req s)) !! k = None ->
        s !! k = None
        \/ (k = req_key req
            /\ exists o, s !! k = Some o
                 /\ IsZero (DeletionTimestamp (Meta o)) = false))
  /\ (forall ev o', ev ∈ log (snd (run env req s)) ->
        event_object ev = Some o' ->
        Spec <$> s !! req_key req = Some (Spec o')).
Proof.
  intros Hwk.
  all_paths.
  all: try use_well_keyed.
  all: split; [intros k o' H; apply (f_equal (fmap Spec)) in H;
               cbn [fmap option_fmap option_map] in H;
               repeat peel_write H; exact H|].
  all: split; [|by_log_inspection].
  all: intros k H; repeat peel_insert_None H.
  all: try (left; exact H).
  all: apply stored_by_update_None in H as [H | [-> Hfin]]; [left; exact H|].
  all: try (rewrite finalized_appended in Hfin; discriminate Hfin).
  all: right; split; [now rewrite key_of_set_Finalizers|].
  all: eexists; split; [rewrite key_of_set_Finalizers, Hk; eassumption|].
  all: now apply negb_true_iff in Heqb.
Qed.

(** C5: a create call appears in the log of an invocation only when the
    object read has an empty instance id and no deletion requested; when
    the stored instance id is not empty, the log holds no create call. *)
Theorem create_only_when_unprovisioned env req s :
  (forall c, EvCreate c ∈ log (snd (run env req s)) ->
     exists o, s !! req_key req = Some o
       /\ InstanceID (Status o) = ""
       /\ IsZero (DeletionTimestamp (Meta o)) = true)
  /\ (forall o, s !! req_key req = Some o ->
        InstanceID (Status o) <> "" ->
        forall c, EvCreate c ∉ log (snd (run env req s))).
Proof.
  assert (Hfirst : forall c, EvCreate c ∈ log (snd (run env req s)) ->
     exists o, s !! req_key req = Some o
       /\ InstanceID (Status o) = ""
       /\ IsZero (DeletionTimestamp (Meta o)) = true).
  { intros c Hin. apply create_in_log in Hin.
    destruct (run_log_cases env req s) as [Hnone | (o & tail & Hs & Hz & Hid & _)].
    - rewrite Hnone in Hin. discriminate.
    - exists o. auto. }
  split; [exact Hfirst|].
  intros o Hs Hid c Hin.
  destruct (Hfirst c Hin) as (o' & Hs' & Hid' & _).
  rewrite Hs in Hs'. inversion Hs'; subst o'. contradiction.
Qed.

(** Splits on every remaining test of an unfolded invocation. *)
Ltac case_paths :=
  step_M;
  repeat (match goal with
          | |- context [match ?x with _ => _ end] =>
              lazymatch x with
              | context [match _ with _ => _ end] => fail
              | _ => destruct x eqn:?; step_M
              end
          end).

(** The log accounts for every change of the store: replaying the accepted
    writes of an invocation on the initial store gives the final store. *)
Lemma store_after_log env req s :
  store (snd (run env req s)) = store_after s (log (snd (run env req s))).
Proof.
  all_paths.
  all: unfold store_after; cbn [app fold_left replay_event].
  all: repeat match goal with
              | H : ?m !! ?k = _ |- context [?m !! ?k] => rewrite H
              end.
  all: reflexivity.
Qed.

(** A write that the store accepted was a write of an object it held. *)
Lemma accepted_update_found env req s c :
  EvUpdate c None ∈ log (snd (run env req s)) ->
  exists old, s !! key_of c = Some old.
Proof.
  all_paths.
  all: intros Hin; cbn [app] in Hin.
  all: repeat (apply elem_of_cons in Hin as [Hin|Hin]; [try discriminate Hin|]).
  all: try (apply elem_of_nil in Hin; contradiction).
  all: inversion Hin; subst; eexists; eassumption.
Qed.

(** C4: an invocation that is to provision an object always appends the
    finalizer and sends the result to the store as its first action after
    the read.  When the store accepts that write, the create call comes
    next and the stored object carries the finalizer.  When the store
    refuses it with [e], the invocation returns [Requeue: true] with [e],
    the log holds no create call and the store is as it was.  And in every
    invocation, a create call for [c] is preceded in the log by an accepted
    write of that same [c], which carries the finalizer, and the store as
    the writes before the create call have left it holds the finalizer
    under the key of [c]. *)
Theorem marker_persisted_before_create env req s :
  (forall l1 c l2,
      log (snd (run env req s)) = (l1 ++ EvCreate c :: l2)%list ->
      EvUpdate c None ∈ l1 /\ finalizerName ∈ Finalizers (Meta c))
  /\ (forall o e,
        getFault env (req_key req) = None ->
        s !! req_key req = Some o ->
        IsZero (DeletionTimestamp (Meta o)) = true ->
        InstanceID (Status o) = "" ->
        updateFault env (with_marker o) = Some e ->
        fst (run env req s) = (requeue, Some e)
        /\ (forall c, EvCreate c ∉ log (snd (run env req s)))
        /\ store (snd (run env req s)) = s)
  /\ (forall o,
        getFault env (req_key req) = None ->
        s !! req_key req = Some o ->
        IsZero (DeletionTimestamp (Meta o)) = true ->
        InstanceID (Status o) = "" ->
        Finalizers (Meta (with_marker o))
        = (Finalizers (Meta o) ++ [finalizerName])%list
        /\ exists r, log (snd (run env req s)) !! 1%nat
                     = Some (EvUpdate (with_marker o) r))
  /\ (forall o,
        getFault env (req_key req) = None ->
        s !! req_key req = Some o ->
        key_of o = req_key req ->
        IsZero (DeletionTimestamp (Meta o)) = true ->
        InstanceID (Status o) = "" ->
        updateFault env (with_marker o) = None ->
        log (snd (run env req s)) !! 1%nat = Some (EvUpdate (with_marker o) None)
        /\ log (snd (run env req s)) !! 2%nat = Some (EvCreate (with_marker o))
        /\ Finalizers ∘ Meta <$> store (snd (run env req s)) !! req_key req
           = Some (Finalizers (Meta o) ++ [finalizerName])%list)
  /\ (forall l1 c l2,
        log (snd (run env req s)) = (l1 ++ EvCreate c :: l2)%list ->
        exists o', store_after s l1 !! key_of c = Some o'
          /\ finalizerName ∈ Finalizers (Meta o'))
  /\ store (snd (run env req s)) = store_after s (log (snd (run env req s))).
Proof.
  assert (Hcut : forall l1 c l2,
    log (snd (run env req s)) = (l1 ++ EvCreate c :: l2)%list ->
    exists o, c = with_marker o
      /\ l1 = [EvGet (req_key req); EvUpdate (with_marker o) None]).
  { intros l1 c l2 Hlog.
    destruct (run_log_cases env req s) as [Hnone | (o & tail & _ & _ & _ & Hl & Ht)].
    - rewrite Hlog, existsb_app in Hnone. cbn in Hnone.
      now rewrite orb_true_r in Hnone.
    - rewrite Hl in Hlog.
      change ([EvGet (req_key req); EvUpdate (with_marker o) None;
               EvCreate (with_marker o)] ++ tail)%list
        with ([EvGet (req_key req); EvUpdate (with_marker o) None]
              ++ EvCreate (with_marker o) :: tail)%list in Hlog.
      apply cut_at_create in Hlog as [-> ->]; [|reflexivity|exact Ht].
      exists o. split; reflexivity. }
  split; [|split; [|split; [|split; [|split]]]].
  - intros l1 c l2 Hlog. destruct (Hcut l1 c l2 Hlog) as (o & -> & ->).
    split.
    + apply elem_of_cons. right. apply elem_of_cons. now left.
    + cbn. apply elem_of_app. right. apply elem_of_cons. now left.
  - intros o e Hf Hs Hz Hid Hw.
    rewrite (provisioning_marker_write_fails env req s o Hf Hs Hz Hid e Hw).
    cbn [fst snd log store]. split; [reflexivity|]. split; [|reflexivity].
    intros c Hin. apply create_in_log in Hin. discriminate.
  - intros o Hf Hs Hz Hid. split; [reflexivity|].
    rewrite (provisioning_enters env req s o Hf Hs Hz Hid).
    unfold reconcile_creating, client_Update, client_Status_Update,
      call_create, bind, emit, get_store, put_store, ret.
    fold (with_marker o). case_paths.
    all: eexists; reflexivity.
  - intros o Hf Hs Hk Hz Hid Hw.
    destruct (createEc2Instance env (with_marker o)) as [c|e] eqn:Hc.
    + destruct (statusUpdateFault env (provisioned o c)) as [e|] eqn:Hsw.
      * rewrite (provisioning_status_write_fails env req s o Hf Hs Hk Hz Hid
                   c e Hw Hc Hsw).
        cbn [snd log store]. now rewrite lookup_insert_eq.
      * rewrite (provisioning_succeeds env req s o Hf Hs Hk Hz Hid c Hw Hc Hsw).
        cbn [snd log store]. now rewrite lookup_insert_eq.
    + rewrite (provisioning_create_fails env req s o Hf Hs Hk Hz Hid e Hw Hc).
      cbn [snd log store]. now rewrite lookup_insert_eq.
  - intros l1 c l2 Hlog. destruct (Hcut l1 c l2 Hlog) as (o & -> & ->).
    destruct (accepted_update_found env req s (with_marker o)) as [old Hold].
    { rewrite Hlog. apply elem_of_app. left.
      apply elem_of_cons. right. apply elem_of_cons. now left. }
    unfold store_after. cbn [fold_left replay_event]. rewrite Hold.
    unfold stored_by_update, with_marker. rewrite finalized_appended.
    rewrite lookup_insert_eq. eexists. split; [reflexivity|].
    cbn. apply elem_of_app. right. apply elem_of_cons. now left.
  - apply store_after_log.
Qed.

(** ** Scenarios and the remaining properties *)

Import Sample.

(** C6, at a concrete input: terminate answers with an error. *)
Lemma terminate_failure_keeps_marker_witness :
  run (env_with (Ok created0) (Ok not_found) (Some (ErrOther "throttled")) None None)
      req0 (store_of deleting)
  = ((requeue, Some (ErrOther "throttled")),
     {| store := store_of deleting; log := [EvGet key0; EvTerminate deleting] |}).
Proof.
  apply (terminate_failure_keeps_marker
           (env_with (Ok created0) (Ok not_found) (Some (ErrOther "throttled"))
              None None)
           req0 (store_of deleting) deleting (ErrOther "throttled"));
    vm_compute; reflexivity.
Defined.

(** C5, at a concrete input: a fresh object is provisioned, and the create
    call in the log comes with an empty stored instance id. *)
Lemma create_only_when_unprovisioned_witness :
  EvCreate (with_marker fresh)
    ∈ log (snd (run (env_ok not_found) req0 (store_of fresh)))
  /\ exists o, store_of fresh !! req_key req0 = Some o
       /\ InstanceID (Status o) = ""
       /\ IsZero (DeletionTimestamp (Meta o)) = true.
Proof.
  assert (Hin : EvCreate (with_marker fresh)
                  ∈ log (snd (run (env_ok not_found) req0 (store_of fresh)))).
  { apply list_elem_of_In. vm_compute. right; right; left; reflexivity. }
  split; [exact Hin|].
  exact (proj1 (create_only_when_unprovisioned (env_ok not_found) req0
                  (store_of fresh)) (with_marker fresh) Hin).
Defined.

(** C4, at two concrete inputs: the marker write is refused, and the marker
    write is accepted and the create call follows it. *)
Lemma marker_persisted_before_create_witness :
  fst (run (env_with (Ok created0) (Ok not_found) None (Some (ErrOther "conflict")) None)
         req0 (store_of fresh))
  = (requeue, Some (ErrOther "conflict"))
  /\ log (snd (run (env_ok not_found) req0 (store_of fresh))) !! 2%nat
     = Some (EvCreate (with_marker fresh)).
Proof.
  split.
  - apply (marker_persisted_before_create
             (env_with (Ok created0) (Ok not_found) None
                (Some (ErrOther "conflict")) None)
             req0 (store_of fresh)) with (o := fresh);
      vm_compute; reflexivity.
  - apply (marker_persisted_before_create (env_ok not_found) req0
             (store_of fresh)) with (o := fresh);
      vm_compute; reflexivity.
Defined.

(** C9, at a concrete input: a fresh object is provisioned, and the object
    stored afterwards has the spec that was stored before. *)
Lemma spec_never_mutated_witness :
  well_keyed (store_of fresh) (req_key req0) = true
  /\ Spec <$> store_of fresh !! key0 = Some (Spec (provisioned fresh created0)).
Proof.
  assert (Hwk : well_keyed (store_of fresh) (req_key req0) = true)
    by (vm_compute; reflexivity).
  split; [exact Hwk|].
  apply (proj1 (spec_never_mutated (env_ok not_found) req0 (store_of fresh) Hwk)
           key0 (provisioned fresh created0)).
  vm_compute; reflexivity.
Defined.

(** C1: the drift branch at Scenario C.  The object records instance i-123
    and the provider reports it missing: the status is written with an empty
    instance id and the invocation asks for an immediate requeue, but the
    state that is stored is the literal "Terminated", which is not the
    provider's state name "terminated" that the same branch tests for. *)
Theorem drift_stores_capitalised_state :
  let r := run (env_ok not_found) req0 (store_of running) in
  fst r = (requeue, None)
  /\ writes (log (snd r)) = [EvStatusUpdate (drift_reset running) None]
  /\ InstanceID ∘ Status <$> store (snd r) !! key0 = Some ""
  /\ State ∘ Status <$> store (snd r) !! key0 = Some "Terminated"
  /\ State ∘ Status <$> store (snd r) !! key0 <> Some "terminated".
Proof.
  cbv zeta.
  rewrite (drift_resets_status (env_ok not_found) req0 (store_of running)
             running not_found) by (vm_compute; auto; discriminate).
  cbn [fst snd log store]. rewrite lookup_insert_eq.
  repeat split; discriminate.
Qed.

(** C3 (amended): when describe reports an existing, non-terminated instance
    whose state differs from the stored one and the status write succeeds,
    the stored state is overwritten with the reported one, that status write
    is the only write, and the directive is a requeue after 30 seconds, the
    steady-state interval; it is not a shorter delay. *)
Theorem sync_requeues_after_steady_interval env req s o d :
  getFault env (req_key req) = None ->
  s !! req_key req = Some o ->
  key_of o = req_key req ->
  IsZero (DeletionTimestamp (Meta o)) = true ->
  InstanceID (Status o) <> "" ->
  checkEC2InstanceExists env (InstanceID (Status o)) o = Ok d ->
  d_exists d = true ->
  d_StateName d <> "terminated" ->
  State (Status o) <> d_StateName d ->
  statusUpdateFault env (synced o (d_StateName d)) = None ->
  fst (run env req s) = (requeue_after (30 * Second), None)
  /\ store (snd (run env req s)) = <[req_key req := synced o (d_StateName d)]> s
  /\ State ∘ Status <$> store (snd (run env req s)) !! req_key req
     = Some (d_StateName d)
  /\ writes (log (snd (run env req s)))
     = [EvStatusUpdate (synced o (d_StateName d)) None]
  /\ ~ requeue_shortly (fst (fst (run env req s))).
Proof.
  intros Hf Hs Hk Hz Hid Hd Hex Hnt Hne Hw.
  rewrite (sync_overwrites_state env req s o d Hf Hs Hk Hz Hid Hd Hex Hnt Hne Hw).
  cbn [fst snd log store]. rewrite lookup_insert_eq.
  repeat split. unfold requeue_shortly. cbn. lia.
Qed.

(** C3, at Scenario B: stored state pending, provider reports running. *)
Lemma sync_requeues_after_steady_interval_witness :
  fst (run (env_ok (reports "running")) req0 (store_of pending))
  = (requeue_after (30 * Second), None).
Proof.
  apply (sync_requeues_after_steady_interval (env_ok (reports "running")) req0
           (store_of pending) pending (reports "running"));
    vm_compute; try reflexivity; discriminate.
Defined.

(** C3 as stated fails at Scenario B: the directive after the state was
    overwritten is the 30 second interval itself, not a shorter delay. *)
Lemma sync_requeue_shortly_counterexample :
  ~ sync_requeues_shortly (env_ok (reports "running")) req0 (store_of pending).
Proof.
  intros H.
  assert (Hs : requeue_shortly
            (fst (fst (run (env_ok (reports "running")) req0 (store_of pending))))).
  { apply (H pending (reports "running"));
      vm_compute; try reflexivity; discriminate. }
  vm_compute in Hs. destruct Hs as [_ Hs]. discriminate Hs.
Qed.

(** C8 (amended): when describe reports an existing, non-terminated instance
    under the stored state, the invocation writes nothing, leaves the store as it was
    and asks for a requeue after 30 seconds; a second invocation on the
    resulting store, with the same provider, does exactly the same and
    writes nothing either. *)
Theorem steady_state_idempotent env req s o d :
  getFault env (req_key req) = None ->
  s !! req_key req = Some o ->
  IsZero (DeletionTimestamp (Meta o)) = true ->
  InstanceID (Status o) <> "" ->
  checkEC2InstanceExists env (InstanceID (Status o)) o = Ok d ->
  d_exists d = true ->
  d_StateName d <> "terminated" ->
  State (Status o) = d_StateName d ->
  let r1 := run env req s in
  let r2 := run env req (store (snd r1)) in
  fst r1 = (requeue_after (30 * Second), None)
  /\ store (snd r1) = s
  /\ writes (log (snd r1)) = []
  /\ r2 = r1
  /\ writes (log (snd r2)) = [].
Proof.
  intros Hf Hs Hz Hid Hd Hex Hnt Heq. cbv zeta.
  rewrite (steady_no_write env req s o d Hf Hs Hz Hid Hd Hex Hnt Heq).
  cbn [fst snd log store].
  rewrite (steady_no_write env req s o d Hf Hs Hz Hid Hd Hex Hnt Heq).
  repeat split.
Qed.

(** C8, at a concrete input: a running instance that the provider reports
    as running. *)
Lemma steady_state_idempotent_witness :
  let r1 := run (env_ok (reports "running")) req0 (store_of running) in
  let r2 := run (env_ok (reports "running")) req0 (store (snd r1)) in
  fst r1 = (requeue_after (30 * Second), None)
  /\ store (snd r1) = store_of running
  /\ writes (log (snd r1)) = []
  /\ r2 = r1
  /\ writes (log (snd r2)) = [].
Proof.
  apply (steady_state_idempotent (env_ok (reports "running")) req0
           (store_of running) running (reports "running"));
    vm_compute; try reflexivity; discriminate.
Defined.

(** C8 as stated fails when the stored state and the reported state are
    both "terminated": the report equals the stored state, yet the
    invocation takes the drift branch, writes the status and asks for an
    immediate requeue. *)
Lemma equal_terminated_report_counterexample :
  ~ equal_report_is_steady (env_ok (reports "terminated")) req0
      (store_of (obj None [finalizerName] (status_of "i-123" "terminated"))).
Proof.
  intros H.
  destruct (H (obj None [finalizerName] (status_of "i-123" "terminated"))
              (reports "terminated")) as [Hw _];
    try (vm_compute; reflexivity).
  - vm_compute; discriminate.
  - vm_compute in Hw. discriminate Hw.
Qed.




(** C7: for an object to be provisioned, when the marker write succeeds and
    create fails with [e], the invocation returns [e], no status write is
    attempted, and the status of every stored object, the one reconciled
    included, is what it was: the instance id stays empty. *)
Theorem create_failure_writes_no_status env req s o e :
  getFault env (req_key req) = None ->
  s !! req_key req = Some o ->
  key_of o = req_key req ->
  IsZero (DeletionTimestamp (Meta o)) = true ->
  InstanceID (Status o) = "" ->
  updateFault env (with_marker o) = None ->
  createEc2Instance env (with_marker o) = Err e ->
  fst (run env req s) = (done, Some e)
  /\ log (snd (run env req s))
     = [EvGet (req_key req); EvUpdate (with_marker o) None;
        EvCreate (with_marker o)]
  /\ (forall k, Status <$> store (snd (run env req s)) !! k = Status <$> s !! k)
  /\ InstanceID ∘ Status <$> store (snd (run env req s)) !! req_key req
     = Some "".
Proof.
  intros Hf Hs Hk Hz Hid Hw Hc.
  rewrite (provisioning_create_fails env req s o Hf Hs Hk Hz Hid e Hw Hc).
  cbn [fst snd log store]. split; [reflexivity|]. split; [reflexivity|].
  split.
  - intros k. destruct (decide (req_key req = k)) as [<-|Hne].
    + now rewrite lookup_insert_eq, Hs.
    + now rewrite lookup_insert_ne.
  - rewrite lookup_insert_eq. cbn. now rewrite Hid.
Qed.

(** C7, at a concrete input: the provider refuses to create. *)
Lemma create_failure_writes_no_status_witness :
  fst (run (env_with (Err (ErrOther "quota")) (Ok not_found) None None None)
         req0 (store_of fresh))
  = (done, Some (ErrOther "quota")).
Proof.
  apply (create_failure_writes_no_status
           (env_with (Err (ErrOther "quota")) (Ok not_found) None None None)
           req0 (store_of fresh) fresh (ErrOther "quota"));
    vm_compute; reflexivity.
Defined.

(** C10: the creation branch appends the finalizer without looking at the
    list.  For an object to be provisioned that already carries the token,
    the second entry of the log is the marker write of the list with the
    token appended once more, so that it holds the token at least twice;
    when that write succeeds, the stored object has this very list. *)
Theorem provisioning_duplicates_marker env req s o :
  getFault env (req_key req) = None ->
  s !! req_key req = Some o ->
  key_of o = req_key req ->
  IsZero (DeletionTimestamp (Meta o)) = true ->
  InstanceID (Status o) = "" ->
  finalizerName ∈ Finalizers (Meta o) ->
  (exists r, log (snd (run env req s)) !! 1%nat
             = Some (EvUpdate (with_marker o) r))
  /\ Finalizers (Meta (with_marker o))
     = (Finalizers (Meta o) ++ [finalizerName])%list
  /\ (2 <= count_occ String.string_dec (Finalizers (Meta (with_marker o)))
             finalizerName)%nat
  /\ (updateFault env (with_marker o) = None ->
      Finalizers ∘ Meta <$> store (snd (run env req s)) !! req_key req
      = Some (Finalizers (Meta o) ++ [finalizerName])%list).
Proof.
  intros Hf Hs Hk Hz Hid Hin.
  assert (Hcount : (2 <= count_occ String.string_dec (Finalizers (Meta (with_marker o)))
                          finalizerName)%nat).
  { cbn [with_marker set_Finalizers Meta Finalizers].
    rewrite count_occ_app. apply list_elem_of_In in Hin.
    apply (count_occ_In String.string_dec) in Hin. cbn [count_occ].
    destruct (String.string_dec finalizerName finalizerName); [lia | contradiction]. }
  destruct (updateFault env (with_marker o)) as [e|] eqn:Hw.
  { rewrite (provisioning_marker_write_fails env req s o Hf Hs Hz Hid e Hw).
    cbn [snd log store]. split; [eexists; reflexivity|].
    split; [reflexivity|]. split; [exact Hcount | discriminate]. }
  destruct (createEc2Instance env (with_marker o)) as [c|e] eqn:Hc.
  2:{ rewrite (provisioning_create_fails env req s o Hf Hs Hk Hz Hid e Hw Hc).
      cbn [snd log store]. rewrite lookup_insert_eq.
      split; [eexists; reflexivity|]. split; [reflexivity|].
      split; [exact Hcount | reflexivity]. }
  destruct (statusUpdateFault env (provisioned o c)) as [e|] eqn:Hsw.
  - rewrite (provisioning_status_write_fails env req s o Hf Hs Hk Hz Hid c e Hw Hc Hsw).
    cbn [snd log store]. rewrite lookup_insert_eq.
    split; [eexists; reflexivity|]. split; [reflexivity|].
    split; [exact Hcount | reflexivity].
  - rewrite (provisioning_succeeds env req s o Hf Hs Hk Hz Hid c Hw Hc Hsw).
    cbn [snd log store]. rewrite lookup_insert_eq.
    split; [eexists; reflexivity|]. split; [reflexivity|].
    split; [exact Hcount | reflexivity].
Qed.

(** C10, after a drift reset: the object carries the token, the provider
    reports its instance missing, and the next invocation provisions it
    again; the stored list then holds the token twice. *)
Lemma provisioning_duplicates_marker_witness :
  let r1 := run (env_ok not_found) req0 (store_of running) in
  let r2 := run (env_ok not_found) req0 (store (snd r1)) in
  Finalizers ∘ Meta <$> store (snd r2) !! key0
  = Some [finalizerName; finalizerName].
Proof.
  cbv zeta.
  pose proof (provisioning_duplicates_marker (env_ok not_found) req0
                (store (snd (run (env_ok not_found) req0 (store_of running))))
                (drift_reset running)) as H.
  destruct H as (_ & _ & _ & H).
  - vm_compute; reflexivity.
  - vm_compute; reflexivity.
  - vm_compute; reflexivity.
  - vm_compute; reflexivity.
  - vm_compute; reflexivity.
  - apply list_elem_of_In. vm_compute. left; reflexivity.
  - apply H. vm_compute; reflexivity.
Defined.

(** ** Reading the object *)

(** X1: when the read answers not-found, because there is no object under
    the key or because the store says so, the invocation ends at once with
    an empty result and no error: no provider call, no write. *)
Theorem absent_object_is_noop env req s :
  (getFault env (req_key req) = None /\ s !! req_key req = None)
  \/ (exists e, getFault env (req_key req) = Some e /\ IsNotFound e = true) ->
  run env req s
  = ((done, None), {| store := s; log := [EvGet (req_key req)] |}).
Proof.
  intros [[Hf Hs] | (e & Hf & Hnf)]; unfold run, Reconcile, bind.
  - rewrite (client_Get_absent env _ _ _ Hf Hs). reflexivity.
  - rewrite (client_Get_fault env _ _ _ e Hf). step_M. now rewrite Hnf.
Qed.

Lemma absent_object_is_noop_witness :
  run (env_ok not_found) req0 ∅
  = ((done, None), {| store := ∅; log := [EvGet key0] |}).
Proof.
  apply (absent_object_is_noop (env_ok not_found) req0 ∅).
  left. split; vm_compute; reflexivity.
Defined.

(** X2: any other read error is handed back as it is, with an empty result;
    again no provider call is made and nothing is written. *)
Theorem read_error_is_returned env req s e :
  getFault env (req_key req) = Some e ->
  IsNotFound e = false ->
  run env req s
  = ((done, Some e), {| store := s; log := [EvGet (req_key req)] |}).
Proof.
  intros Hf Hnf. unfold run, Reconcile, bind.
  rewrite (client_Get_fault env _ _ _ e Hf). step_M. now rewrite Hnf.
Qed.

Lemma read_error_is_returned_witness :
  fst (run {| createEc2Instance := fun _ => Ok created0;
              checkEC2InstanceExists := fun _ _ => Ok not_found;
              deleteEc2Instance := fun _ => None;
              getFault := fun _ => Some (ErrOther "timeout");
              updateFault := fun _ => None;
              statusUpdateFault := fun _ => None |} req0 (store_of running))
  = (done, Some (ErrOther "timeout")).
Proof.
  rewrite (read_error_is_returned _ req0 (store_of running) (ErrOther "timeout"));
    reflexivity.
Defined.

(** ** More on the deletion branch *)

Section Deleting.

Variables (env : Env) (req : Request) (s : gmap NamespacedName Ec2Instance).
Variable o : Ec2Instance.

Hypothesis Hfault : getFault env (req_key req) = None.
Hypothesis Hstored : s !! req_key req = Some o.
Hypothesis Hdel : IsZero (DeletionTimestamp (Meta o)) = false.

Lemma deleting_enters :
  run env req s
  = reconcile_deleting env o {| store := s; log := [EvGet (req_key req)] |}.
Proof.
  rewrite (Reconcile_found env req s o Hfault Hstored). step_M.
  now rewrite Hdel.
Qed.

Lemma deleting_succeeds :
  key_of o = req_key req ->
  deleteEc2Instance env o = None ->
  updateFault env (RemoveFinalizer o finalizerName) = None ->
  run env req s
  = ((done, None),
     {| store := stored_by_update s o (RemoveFinalizer o finalizerName);
        log := [EvGet (req_key req); EvTerminate o;
                EvUpdate (RemoveFinalizer o finalizerName) None] |}).
Proof.
  intros Hk Ht Hw. rewrite deleting_enters.
  unfold reconcile_deleting, call_delete, bind, emit, ret. step_M.
  rewrite Ht.
  rewrite (client_Update_ok env (RemoveFinalizer o finalizerName) s _ o Hw)
    by (rewrite key_of_RemoveFinalizer; now rewrite Hk).
  reflexivity.
Qed.

Lemma deleting_marker_write_fails e :
  deleteEc2Instance env o = None ->
  updateFault env (RemoveFinalizer o finalizerName) = Some e ->
  run env req s
  = ((requeue, Some e),
     {| store := s;
        log := [EvGet (req_key req); EvTerminate o;
                EvUpdate (RemoveFinalizer o finalizerName) (Some e)] |}).
Proof.
  intros Ht Hw. rewrite deleting_enters.
  unfold reconcile_deleting, call_delete, bind, emit, ret. step_M.
  rewrite Ht. now rewrite (client_Update_fault env _ _ _ e Hw).
Qed.

End Deleting.

(** What [RemoveFinalizer] leaves in the list. *)
Lemma RemoveFinalizer_elem o f g :
  g ∈ Finalizers (Meta (RemoveFinalizer o f))
  <-> g ∈ Finalizers (Meta o) /\ g <> f.
Proof.
  cbn [RemoveFinalizer set_Finalizers Meta Finalizers].
  rewrite !list_elem_of_In, filter_In, negb_true_iff, String.eqb_neq.
  reflexivity.
Qed.

(** X3: when deletion has been requested and both terminate and the marker
    write succeed, the invocation returns an empty result without error
    after exactly these two calls.  The object sent to the store has lost
    every occurrence of the finalizer and nothing else: the other
    finalizers, the spec and the status (the instance id included) are as
    they were.  If other finalizers are left, this object is what the store
    holds afterwards; if none is left, the store holds no object under the
    key any more. *)
Theorem deletion_releases_marker env req s o :
  getFault env (req_key req) = None ->
  s !! req_key req = Some o ->
  key_of o = req_key req ->
  IsZero (DeletionTimestamp (Meta o)) = false ->
  deleteEc2Instance env o = None ->
  updateFault env (RemoveFinalizer o finalizerName) = None ->
  let o' := RemoveFinalizer o finalizerName in
  fst (run env req s) = (done, None)
  /\ log (snd (run env req s))
     = [EvGet (req_key req); EvTerminate o; EvUpdate o' None]
  /\ (Finalizers (Meta o') = [] ->
      store (snd (run env req s)) !! req_key req = None)
  /\ (Finalizers (Meta o') <> [] ->
      store (snd (run env req s)) !! req_key req = Some o')
  /\ (finalizerName ∉ Finalizers (Meta o'))
  /\ (forall f, f <> finalizerName ->
        (f ∈ Finalizers (Meta o') <-> f ∈ Finalizers (Meta o)))
  /\ Spec o' = Spec o
  /\ Status o' = Status o.
Proof.
  intros Hf Hs Hk Hd Ht Hw. cbv zeta.
  rewrite (deleting_succeeds env req s o Hf Hs Hd Hk Ht Hw).
  cbn [fst snd log store]. split; [reflexivity|]. split; [reflexivity|].
  unfold stored_by_update, finalized.
  rewrite (deletion_requested_IsZero _ Hd), key_of_RemoveFinalizer, Hk.
  cbn [andb].
  split; [|split]; [| |split; [|split; [|split; reflexivity]]].
  - intros Hnil. rewrite Hnil. cbn [length Nat.eqb]. apply lookup_delete_eq.
  - intros Hne.
    destruct (Finalizers (Meta (RemoveFinalizer o finalizerName))) eqn:Hfs;
      [contradiction|].
    cbn [length Nat.eqb]. apply lookup_insert_eq.
  - intros Hin. apply RemoveFinalizer_elem in Hin as [_ Hne]. now apply Hne.
  - intros f Hne. rewrite RemoveFinalizer_elem. tauto.
Qed.

(** X3, at a concrete input: the finalizer was the only one, and the store
    holds no object afterwards. *)
Lemma deletion_releases_marker_witness :
  store (snd (run (env_ok not_found) req0 (store_of deleting))) !! req_key req0
  = None.
Proof.
  apply (deletion_releases_marker (env_ok not_found) req0 (store_of deleting)
           deleting);
    vm_compute; reflexivity.
Defined.

(** X4: when terminate succeeds but the write that removes the finalizer
    fails with [e], the invocation returns [Requeue: true] with [e] and the
    store is as it was, finalizer included: the retry meets the same object
    and calls terminate once more. *)
Theorem marker_release_failure_retries env req s o e :
  getFault env (req_key req) = None ->
  s !! req_key req = Some o ->
  IsZero (DeletionTimestamp (Meta o)) = false ->
  deleteEc2Instance env o = None ->
  updateFault env (RemoveFinalizer o finalizerName) = Some e ->
  let r1 := run env req s in
  let r2 := run env req (store (snd r1)) in
  fst r1 = (requeue, Some e)
  /\ store (snd r1) = s
  /\ log (snd r1)
     = [EvGet (req_key req); EvTerminate o;
        EvUpdate (RemoveFinalizer o finalizerName) (Some e)]
  /\ log (snd r2) !! 1%nat = Some (EvTerminate o).
Proof.
  intros Hf Hs Hd Ht Hw. cbv zeta.
  rewrite (deleting_marker_write_fails env req s o Hf Hs Hd e Ht Hw).
  cbn [fst snd log store].
  rewrite (deleting_marker_write_fails env req s o Hf Hs Hd e Ht Hw).
  repeat split.
Qed.

Lemma marker_release_failure_retries_witness :
  fst (run (env_with (Ok created0) (Ok not_found) None (Some (ErrOther "conflict")) None)
         req0 (store_of deleting))
  = (requeue, Some (ErrOther "conflict")).
Proof.
  apply (marker_release_failure_retries
           (env_with (Ok created0) (Ok not_found) None (Some (ErrOther "conflict")) None)
           req0 (store_of deleting) deleting (ErrOther "conflict"));
    vm_compute; reflexivity.
Defined.

(** Closes a goal that an event of some kind is not in an explicit log. *)
Ltac not_in_log :=
  let Hin := fresh "Hin" in
  intros Hin; cbn [app] in Hin;
  repeat (apply elem_of_cons in Hin as [Hin|Hin]; [discriminate Hin|]);
  apply elem_of_nil in Hin; contradiction.

(** X5: once deletion has been requested, the second entry of the log is the
    terminate call, whatever the instance id is (empty included), and the
    invocation neither creates, nor describes, nor writes a status. *)
Theorem deletion_only_terminates env req s o :
  getFault env (req_key req) = None ->
  s !! req_key req = Some o ->
  IsZero (DeletionTimestamp (Meta o)) = false ->
  log (snd (run env req s)) !! 1%nat = Some (EvTerminate o)
  /\ (forall c, EvCreate c ∉ log (snd (run env req s)))
  /\ (forall id, EvDescribe id ∉ log (snd (run env req s)))
  /\ (forall c r, EvStatusUpdate c r ∉ log (snd (run env req s))).
Proof.
  intros Hf Hs Hd.
  rewrite (deleting_enters env req s o Hf Hs Hd).
  unfold reconcile_deleting, call_delete, client_Update, bind, emit,
    get_store, put_store, ret. step_M.
  destruct (deleteEc2Instance env o); step_M.
  2: destruct (updateFault env _); step_M.
  3: destruct (s !! key_of _); step_M.
  all: split; [reflexivity|].
  all: split; [intros c|split; [intros id|intros c r]]; not_in_log.
Qed.

(** X5, at a concrete input: deletion of an object that never got an
    instance id still calls terminate. *)
Lemma deletion_only_terminates_witness :
  log (snd (run (env_ok not_found) req0
              (store_of (obj (Some 63897465600) [finalizerName] status_empty))))
      !! 1%nat
  = Some (EvTerminate (obj (Some 63897465600) [finalizerName] status_empty)).
Proof.
  apply (deletion_only_terminates (env_ok not_found) req0
           (store_of (obj (Some 63897465600) [finalizerName] status_empty))
           (obj (Some 63897465600) [finalizerName] status_empty));
    vm_compute; reflexivity.
Defined.

(** X6: in every invocation, a terminate call is made on the object read,
    and only when its deletion was requested; a describe call is made for
    the instance id of the object read, and only when that id is not empty
    and no deletion was requested. *)
Theorem provider_calls_follow_state env req s :
  (forall c, EvTerminate c ∈ log (snd (run env req s)) ->
     s !! req_key req = Some c
     /\ IsZero (DeletionTimestamp (Meta c)) = false)
  /\ (forall id, EvDescribe id ∈ log (snd (run env req s)) ->
        exists o, s !! req_key req = Some o
          /\ id = InstanceID (Status o)
          /\ id <> ""
          /\ IsZero (DeletionTimestamp (Meta o)) = true).
Proof.
  all_paths.
  all: split; [intros c Hin | intros id Hin]; cbn [app] in Hin.
  all: repeat (apply elem_of_cons in Hin as [Hin|Hin]; [try discriminate Hin|]).
  all: try (apply elem_of_nil in Hin; contradiction).
  all: inversion Hin; subst.
  all: try (apply negb_true_iff in Heqb; split; [reflexivity | exact Heqb]).
  all: apply negb_false_iff in Heqb; apply negb_true_iff in Heqb0;
       apply String.eqb_neq in Heqb0.
  all: eexists; split; [reflexivity|]; split; [reflexivity|];
       split; assumption.
Qed.

Lemma provider_calls_follow_state_witness :
  EvDescribe "i-123"
    ∈ log (snd (run (env_ok (reports "running")) req0 (store_of running)))
  /\ exists o, store_of running !! req_key req0 = Some o
       /\ "i-123" = InstanceID (Status o)
       /\ "i-123" <> ""
       /\ IsZero (DeletionTimestamp (Meta o)) = true.
Proof.
  assert (Hin : EvDescribe "i-123"
                  ∈ log (snd (run (env_ok (reports "running")) req0
                                (store_of running)))).
  { apply list_elem_of_In. vm_compute. right; left; reflexivity. }
  split; [exact Hin|].
  exact (proj2 (provider_calls_follow_state (env_ok (reports "running")) req0
                  (store_of running)) "i-123" Hin).
Defined.

(** ** What failures leave behind *)

(** Overwriting an entry with an object of the same status changes no
    status. *)
Lemma insert_same_status (s : gmap NamespacedName Ec2Instance) k o o' k' :
  s !! k = Some o -> Status o' = Status o ->
  Status <$> <[k := o']> s !! k' = Status <$> s !! k'.
Proof.
  intros Hs Hst. destruct (decide (k = k')) as [<-|Hne].
  - rewrite lookup_insert_eq, Hs. cbn. now rewrite Hst.
  - now rewrite lookup_insert_ne.
Qed.

(** X7: whenever an invocation returns an error, on any path, the status of
    every stored object is what it was before the invocation, and the result
    carries no delay. *)
Theorem error_keeps_statuses env req s e :
  snd (fst (run env req s)) = Some e ->
  (forall k, Status <$> store (snd (run env req s)) !! k = Status <$> s !! k)
  /\ RequeueAfter (fst (fst (run env req s))) = 0.
Proof.
  all_paths.
  all: intros Herr; try discriminate Herr.
  all: split; [|reflexivity].
  all: try reflexivity.
  all: unfold stored_by_update; rewrite finalized_appended.
  all: intros k; eapply insert_same_status; [eassumption | reflexivity].
Qed.

(** X7, at a concrete input: create succeeds and the status write fails. *)
Lemma error_keeps_statuses_witness :
  Status <$> store (snd (run (env_with (Ok created0) (Ok not_found) None None
                                (Some (ErrOther "conflict")))
                           req0 (store_of fresh))) !! key0
  = Status <$> store_of fresh !! key0.
Proof.
  apply (error_keeps_statuses
           (env_with (Ok created0) (Ok not_found) None None
              (Some (ErrOther "conflict")))
           req0 (store_of fresh) (ErrOther "conflict")).
  vm_compute; reflexivity.
Defined.

(** X8: for an object with an instance id and no deletion requested, an
    error from describe or from the status write (after drift or after a
    state change) comes back with an empty result, not with [Requeue: true],
    and the store is left exactly as it was. *)
Theorem verifying_error_changes_nothing env req s o e :
  getFault env (req_key req) = None ->
  s !! req_key req = Some o ->
  IsZero (DeletionTimestamp (Meta o)) = true ->
  InstanceID (Status o) <> "" ->
  snd (fst (run env req s)) = Some e ->
  fst (run env req s) = (done, Some e)
  /\ store (snd (run env req s)) = s
  /\ forall c r, EvStatusUpdate c r ∈ log (snd (run env req s)) -> r = Some e.
Proof.
  intros Hf Hs Hz Hid.
  rewrite (Reconcile_found env req s o Hf Hs). step_M.
  rewrite Hz, (eqb_empty_false _ Hid). cbn [negb].
  unfold reconcile_existing, call_check, client_Status_Update, bind, emit,
    get_store, put_store, ret. step_M.
  repeat (match goal with
          | |- context [match ?x with _ => _ end] =>
              lazymatch x with
              | context [match _ with _ => _ end] => fail
              | _ => destruct x eqn:?; step_M
              end
          end).
  all: intros Herr; try discriminate Herr.
  all: inversion Herr; subst.
  all: split; [reflexivity|]; split; [reflexivity|].
  all: intros c r Hin; cbn [app] in Hin.
  all: repeat (apply elem_of_cons in Hin as [Hin|Hin]; [try discriminate Hin|]).
  all: try (apply elem_of_nil in Hin; contradiction).
  all: now inversion Hin.
Qed.

(** X8, at a concrete input: describe fails. *)
Lemma verifying_error_changes_nothing_witness :
  store (snd (run (env_with (Ok created0) (Err (ErrOther "throttled")) None None None)
                req0 (store_of running)))
  = store_of running.
Proof.
  apply (verifying_error_changes_nothing
           (env_with (Ok created0) (Err (ErrOther "throttled")) None None None)
           req0 (store_of running) running (ErrOther "throttled"));
    vm_compute; try reflexivity; discriminate.
Defined.

(** ** Shape of every invocation *)

(** X9: the result of an invocation carries one of three delays, none, one
    second or thirty seconds; a delay never comes with [Requeue: true] nor
    with an error, and an invocation that returns neither an error nor any
    request to come back has written no status. *)
Theorem result_shapes env req s :
  let r := fst (fst (run env req s)) in
  let err := snd (fst (run env req s)) in
  (RequeueAfter r = 0 \/ RequeueAfter r = 1 * Second
   \/ RequeueAfter r = 30 * Second)
  /\ (RequeueAfter r <> 0 -> Requeue r = false /\ err = None)
  /\ (r = done -> err = None ->
      forall c w, EvStatusUpdate c w ∉ log (snd (run env req s))).
Proof.
  all_paths.
  all: split; [auto|].
  all: split; [try (intros H; contradiction); intros _; split; reflexivity|].
  all: try (intros H; discriminate H).
  all: try (intros _ H; discriminate H).
  all: intros _ _ c w; not_in_log.
Qed.

(** X10: every invocation starts with the read, makes at most one call to
    the provider and at most two writes to the store. *)
Theorem call_budget env req s :
  head (log (snd (run env req s))) = Some (EvGet (req_key req))
  /\ (length (List.filter is_provider_call (log (snd (run env req s)))) <= 1)%nat
  /\ (length (writes (log (snd (run env req s)))) <= 2)%nat.
Proof.
  all_paths.
  all: split; [reflexivity|]; cbn; lia.
Qed.

(** Reads back what an earlier write of the invocation has stored. *)
Ltac resolve_inserted :=
  repeat match goal with
         | H : <[_ := _]> _ !! _ = _ |- _ =>
             rewrite lookup_insert_eq in H; inversion H; subst; clear H
         end.

(** Exposes what the accepted updates of the invocation have stored. *)
Ltac expose_updates :=
  unfold stored_by_update in *;
  rewrite ?finalized_appended in *;
  rewrite ?key_of_set_Finalizers, ?key_of_set_Status in *;
  try match goal with Hk : key_of _ = _ |- _ => rewrite ?Hk in * end;
  resolve_inserted.

(** X11: an invocation touches nothing but the object it was asked to
    reconcile.  Every other entry of the store is as it was, and no object
    appears under the key of the request.  The object under that key either
    stays, with its namespace, name and deletion timestamp, or is gone; it
    is gone only when its deletion had been requested, the invocation
    returned an empty result without error, and removing the finalizer left
    it with no finalizer at all.  The store is assumed to keep the object
    under its own name. *)
Theorem other_objects_untouched env req s :
  well_keyed s (req_key req) = true ->
  (forall k, k <> req_key req -> store (snd (run env req s)) !! k = s !! k)
  /\ (s !! req_key req = None -> store (snd (run env req s)) !! req_key req = None)
  /\ (forall o, s !! req_key req = Some o ->
        (exists o', store (snd (run env req s)) !! req_key req = Some o'
           /\ Namespace (Meta o') = Namespace (Meta o)
           /\ Name (Meta o') = Name (Meta o)
           /\ DeletionTimestamp (Meta o') = DeletionTimestamp (Meta o))
        \/ (store (snd (run env req s)) !! req_key req = None
            /\ IsZero (DeletionTimestamp (Meta o)) = false
            /\ fst (run env req s) = (done, None)
            /\ Finalizers (Meta (RemoveFinalizer o finalizerName)) = [])).
Proof.
  intros Hwk.
  all_paths.
  all: try use_well_keyed.
  all: expose_updates.
  all: try match goal with
           | |- context [finalized ?a ?b] => destruct (finalized a b) eqn:Hfin
           end.
  all: split; [intros k Hne;
               rewrite ?lookup_insert_ne, ?lookup_delete_ne by congruence;
               reflexivity|].
  all: split; [try (intros H; discriminate H); auto|].
  all: intros o Ho.
  all: try (rewrite Ho in *; discriminate).
  all: try (match goal with H : Some _ = Some _ |- _ => inversion H; subst end).
  all: rewrite ?lookup_insert_eq, ?lookup_delete_eq.
  all: try (left; eexists; split; [first [reflexivity | eassumption]|];
            repeat split; fail).
  right. split; [reflexivity|].
  split; [now apply negb_true_iff in Heqb|]. split; [reflexivity|].
  unfold finalized in Hfin. apply andb_true_iff in Hfin as [_ Hlen].
  apply Nat.eqb_eq in Hlen. now apply length_zero_iff_nil in Hlen.
Qed.

(** X11, at a concrete input: a fresh object is provisioned next to another
    object, which stays as it is. *)
Lemma other_objects_untouched_witness :
  store (snd (run (env_ok not_found) req0
                (<[key_of neighbour := neighbour]> (store_of fresh))))
    !! key_of neighbour
  = Some neighbour.
Proof.
  assert (Hwk : well_keyed (<[key_of neighbour := neighbour]> (store_of fresh))
                  (req_key req0) = true) by (vm_compute; reflexivity).
  assert (Hne : key_of neighbour <> req_key req0) by (vm_compute; discriminate).
  etrans.
  - exact (proj1 (other_objects_untouched (env_ok not_found) req0
                    (<[key_of neighbour := neighbour]> (store_of fresh)) Hwk)
             (key_of neighbour) Hne).
  - vm_compute; reflexivity.
Defined.

(** X12: for an object whose deletion was not requested, an invocation
    keeps the rule that a recorded instance id comes with the finalizer: if
    the stored object obeys it before, the stored object obeys it after, on
    every path. *)
Theorem marker_invariant_preserved env req s :
  well_keyed s (req_key req) = true ->
  forall o, s !! req_key req = Some o ->
    IsZero (DeletionTimestamp (Meta o)) = true ->
    marker_invariant o ->
    forall o', store (snd (run env req s)) !! req_key req = Some o' ->
      marker_invariant o'.
Proof.
  intros Hwk.
  all_paths.
  all: try use_well_keyed.
  all: expose_updates.
  all: intros o Ho Hz Hinv o' Ho'.
  all: simplify_eq.
  all: try (rewrite Hz in *; discriminate).
  all: repeat match goal with
              | H : <[_ := _]> _ !! _ = Some _ |- _ =>
                  rewrite lookup_insert_eq in H
              end; simplify_eq.
  all: try assumption.
  all: unfold marker_invariant in *;
       cbn [set_Status set_State set_InstanceID set_Finalizers Status Meta
            InstanceID Finalizers status_of_created] in *;
       intros Hid.
  all: try contradiction.
  all: try (now apply Hinv).
  all: apply elem_of_app; right; apply elem_of_cons; now left.
Qed.

(** X12, at a concrete input: a fresh object is provisioned and the stored
    object carries the finalizer next to its new instance id. *)
Lemma marker_invariant_preserved_witness :
  finalizerName ∈ Finalizers (Meta (provisioned fresh created0)).
Proof.
  assert (Hwk : well_keyed (store_of fresh) (req_key req0) = true)
    by (vm_compute; reflexivity).
  assert (Hinv : marker_invariant fresh)
    by (intros H; vm_compute in H; contradiction).
  apply (marker_invariant_preserved (env_ok not_found) req0 (store_of fresh)
           Hwk fresh ltac:(vm_compute; reflexivity)
           ltac:(vm_compute; reflexivity) Hinv (provisioned fresh created0)
           ltac:(vm_compute; reflexivity)).
  vm_compute; discriminate.
Defined.

(** ** More on drift *)

(** X13: the drift reset clears the instance id and nothing else of what
    identifies the lost instance: the four address fields of the stored
    status keep the values of the instance that is gone, and the finalizers
    and the spec are untouched.  This also holds when the stored state
    already equals the reported "terminated". *)
Theorem drift_reset_keeps_addresses env req s o d :
  getFault env (req_key req) = None ->
  s !! req_key req = Some o ->
  key_of o = req_key req ->
  IsZero (DeletionTimestamp (Meta o)) = true ->
  InstanceID (Status o) <> "" ->
  checkEC2InstanceExists env (InstanceID (Status o)) o = Ok d ->
  d_exists d = false \/ d_StateName d = "terminated" ->
  statusUpdateFault env (drift_reset o) = None ->
  fst (run env req s) = (requeue, None)
  /\ exists o', store (snd (run env req s)) !! req_key req = Some o'
       /\ InstanceID (Status o') = ""
       /\ PublicIP (Status o') = PublicIP (Status o)
       /\ PrivateIP (Status o') = PrivateIP (Status o)
       /\ PublicDNS (Status o') = PublicDNS (Status o)
       /\ PrivateDNS (Status o') = PrivateDNS (Status o)
       /\ Meta o' = Meta o
       /\ Spec o' = Spec o.
Proof.
  intros Hf Hs Hk Hz Hid Hd Hgone Hw.
  rewrite (drift_resets_status env req s o d Hf Hs Hk Hz Hid Hd Hgone Hw).
  cbn [fst snd store]. split; [reflexivity|].
  exists (drift_reset o). rewrite lookup_insert_eq. repeat split.
Qed.

(** X13, at a concrete input: the provider reports the instance as
    terminated and the stored state says terminated as well. *)
Lemma drift_reset_keeps_addresses_witness :
  fst (run (env_ok (reports "terminated")) req0
         (store_of (obj None [finalizerName] (status_of "i-123" "terminated"))))
  = (requeue, None).
Proof.
  apply (drift_reset_keeps_addresses (env_ok (reports "terminated")) req0
           (store_of (obj None [finalizerName] (status_of "i-123" "terminated")))
           (obj None [finalizerName] (status_of "i-123" "terminated"))
           (reports "terminated"));
    vm_compute; auto; discriminate.
Defined.

(** X14: drift heals in two invocations.  After the drift reset, the next
    invocation on the resulting store takes the creation branch: when its
    marker write, create call and status write succeed, the stored object
    records the instance id of the new instance and the directive is a
    requeue after one second. *)
Theorem drift_then_recreate env req s o d c :
  getFault env (req_key req) = None ->
  s !! req_key req = Some o ->
  key_of o = req_key req ->
  IsZero (DeletionTimestamp (Meta o)) = true ->
  InstanceID (Status o) <> "" ->
  checkEC2InstanceExists env (InstanceID (Status o)) o = Ok d ->
  d_exists d = false \/ d_StateName d = "terminated" ->
  statusUpdateFault env (drift_reset o) = None ->
  updateFault env (with_marker (drift_reset o)) = None ->
  createEc2Instance env (with_marker (drift_reset o)) = Ok c ->
  statusUpdateFault env (provisioned (drift_reset o) c) = None ->
  let r1 := run env req s in
  let r2 := run env req (store (snd r1)) in
  fst r1 = (requeue, None)
  /\ fst r2 = (requeue_after (1 * Second), None)
  /\ log (snd r2)
     = [EvGet (req_key req); EvUpdate (with_marker (drift_reset o)) None;
        EvCreate (with_marker (drift_reset o));
        EvStatusUpdate (provisioned (drift_reset o) c) None]
  /\ InstanceID ∘ Status <$> store (snd r2) !! req_key req
     = Some (ci_InstanceID c).
Proof.
  intros Hf Hs Hk Hz Hid Hd Hgone Hw Hu Hc Hsw. cbv zeta.
  rewrite (drift_resets_status env req s o d Hf Hs Hk Hz Hid Hd Hgone Hw).
  cbn [fst snd store].
  rewrite (provisioning_succeeds env req _ (drift_reset o) Hf
             (lookup_insert_eq _ _ _) Hk Hz eq_refl c Hu Hc Hsw).
  cbn [fst snd log store]. rewrite lookup_insert_eq. repeat split.
Qed.

(** X14, at Scenario C. *)
Lemma drift_then_recreate_witness :
  let r1 := run (env_ok not_found) req0 (store_of running) in
  let r2 := run (env_ok not_found) req0 (store (snd r1)) in
  InstanceID ∘ Status <$> store (snd r2) !! req_key req0 = Some "i-123".
Proof.
  apply (drift_then_recreate (env_ok not_found) req0 (store_of running)
           running not_found created0);
    vm_compute; auto; discriminate.
Defined.

(** ** Across invocations *)

(** X15: when create succeeds and the status write that follows fails, the
    error is returned and the instance that was just created is recorded
    nowhere: the stored instance id is still empty.  The next invocation
    whose marker write succeeds therefore calls create again, with the
    finalizer appended a second time. *)
Theorem unrecorded_create_is_repeated env env' req s o c e :
  getFault env (req_key req) = None ->
  s !! req_key req = Some o ->
  key_of o = req_key req ->
  IsZero (DeletionTimestamp (Meta o)) = true ->
  InstanceID (Status o) = "" ->
  updateFault env (with_marker o) = None ->
  createEc2Instance env (with_marker o) = Ok c ->
  statusUpdateFault env (provisioned o c) = Some e ->
  getFault env' (req_key req) = None ->
  updateFault env' (with_marker (with_marker o)) = None ->
  let r1 := run env req s in
  let r2 := run env' req (store (snd r1)) in
  fst r1 = (done, Some e)
  /\ InstanceID ∘ Status <$> store (snd r1) !! req_key req = Some ""
  /\ log (snd r1) !! 2%nat = Some (EvCreate (with_marker o))
  /\ log (snd r2) !! 2%nat = Some (EvCreate (with_marker (with_marker o))).
Proof.
  intros Hf Hs Hk Hz Hid Hu Hc Hsw Hf' Hu'. cbv zeta.
  rewrite (provisioning_status_write_fails env req s o Hf Hs Hk Hz Hid c e Hu Hc Hsw).
  cbn [fst snd log store]. rewrite lookup_insert_eq.
  split; [reflexivity|]. split; [cbn; now rewrite Hid|].
  split; [reflexivity|].
  assert (Hs' : <[req_key req := with_marker o]> s !! req_key req
                = Some (with_marker o)) by apply lookup_insert_eq.
  destruct (createEc2Instance env' (with_marker (with_marker o))) as [c'|e'] eqn:Hc'.
  - destruct (statusUpdateFault env' (provisioned (with_marker o) c'))
      as [e'|] eqn:Hsw'.
    + now rewrite (provisioning_status_write_fails env' req _ (with_marker o)
                     Hf' Hs' Hk Hz Hid c' e' Hu' Hc' Hsw').
    + now rewrite (provisioning_succeeds env' req _ (with_marker o)
                     Hf' Hs' Hk Hz Hid c' Hu' Hc' Hsw').
  - now rewrite (provisioning_create_fails env' req _ (with_marker o)
                   Hf' Hs' Hk Hz Hid e' Hu' Hc').
Qed.

(** X15, at a concrete input: the status write is refused once and the
    store ends up recording the second instance only. *)
Lemma unrecorded_create_is_repeated_witness :
  let r1 := run (env_with (Ok created0) (Ok not_found) None None
                   (Some (ErrOther "conflict")))
              req0 (store_of fresh) in
  let r2 := run (env_ok not_found) req0 (store (snd r1)) in
  log (snd r2) !! 2%nat = Some (EvCreate (with_marker (with_marker fresh))).
Proof.
  apply (unrecorded_create_is_repeated
           (env_with (Ok created0) (Ok not_found) None None
              (Some (ErrOther "conflict")))
           (env_ok not_found) req0 (store_of fresh) fresh created0
           (ErrOther "conflict"));
    vm_compute; reflexivity.
Defined.

(** X16: a state change settles in two invocations.  After the invocation
    that overwrote the stored state, the next one against the same provider
    report finds nothing to do: it writes nothing and asks again for the
    30 second interval. *)
Theorem sync_then_steady env req s o d :
  getFault env (req_key req) = None ->
  s !! req_key req = Some o ->
  key_of o = req_key req ->
  IsZero (DeletionTimestamp (Meta o)) = true ->
  InstanceID (Status o) <> "" ->
  checkEC2InstanceExists env (InstanceID (Status o)) o = Ok d ->
  checkEC2InstanceExists env (InstanceID (Status o)) (synced o (d_StateName d))
  = Ok d ->
  d_exists d = true ->
  d_StateName d <> "terminated" ->
  State (Status o) <> d_StateName d ->
  statusUpdateFault env (synced o (d_StateName d)) = None ->
  let r1 := run env req s in
  let r2 := run env req (store (snd r1)) in
  writes (log (snd r1)) = [EvStatusUpdate (synced o (d_StateName d)) None]
  /\ fst r2 = (requeue_after (30 * Second), None)
  /\ writes (log (snd r2)) = []
  /\ store (snd r2) = store (snd r1).
Proof.
  intros Hf Hs Hk Hz Hid Hd Hd' Hex Hnt Hne Hw. cbv zeta.
  rewrite (sync_overwrites_state env req s o d Hf Hs Hk Hz Hid Hd Hex Hnt Hne Hw).
  cbn [fst snd log store].
  rewrite (steady_no_write env req _ (synced o (d_StateName d)) d Hf
             (lookup_insert_eq _ _ _) Hz Hid Hd' Hex Hnt eq_refl).
  repeat split.
Qed.

(** X16, at Scenario B followed by one more invocation. *)
Lemma sync_then_steady_witness :
  let r1 := run (env_ok (reports "running")) req0 (store_of pending) in
  let r2 := run (env_ok (reports "running")) req0 (store (snd r1)) in
  writes (log (snd r2)) = [].
Proof.
  apply (sync_then_steady (env_ok (reports "running")) req0 (store_of pending)
           pending (reports "running"));
    vm_compute; try reflexivity; discriminate.
Defined.

(** X17: once an invocation has provisioned the object and recorded a
    non-empty instance id, no later invocation on that store calls create,
    whatever the provider and the store answer. *)
Theorem recorded_instance_is_not_recreated env env' req s o c :
  getFault env (req_key req) = None ->
  s !! req_key req = Some o ->
  key_of o = req_key req ->
  IsZero (DeletionTimestamp (Meta o)) = true ->
  InstanceID (Status o) = "" ->
  updateFault env (with_marker o) = None ->
  createEc2Instance env (with_marker o) = Ok c ->
  statusUpdateFault env (provisioned o c) = None ->
  ci_InstanceID c <> "" ->
  let r1 := run env req s in
  let r2 := run env' req (store (snd r1)) in
  existsb is_create (log (snd r1)) = true
  /\ existsb is_create (log (snd r2)) = false.
Proof.
  intros Hf Hs Hk Hz Hid Hu Hc Hsw Hne. cbv zeta.
  rewrite (provisioning_succeeds env req s o Hf Hs Hk Hz Hid c Hu Hc Hsw).
  cbn [fst snd log store]. split; [reflexivity|].
  destruct (run_log_cases env' req (<[req_key req := provisioned o c]> s))
    as [Hnone | (o' & tail & Hs' & _ & Hid' & _)]; [exact Hnone|].
  rewrite lookup_insert_eq in Hs'. inversion Hs'; subst o'.
  cbn in Hid'. contradiction.
Qed.

(** X17, at Scenario A followed by an invocation against a provider that
    has lost the instance. *)
Lemma recorded_instance_is_not_recreated_witness :
  let r1 := run (env_ok not_found) req0 (store_of fresh) in
  let r2 := run (env_ok not_found) req0 (store (snd r1)) in
  existsb is_create (log (snd r1)) = true
  /\ existsb is_create (log (snd r2)) = false.
Proof.
  apply (recorded_instance_is_not_recreated (env_ok not_found)
           (env_ok not_found) req0 (store_of fresh) fresh created0);
    vm_compute; try reflexivity; discriminate.
Defined.
